(** * Defiant: tuples (frozen arrays), records (frozen objects) and deep equality

    A shallow embedding of [defiant.ts].  JavaScript values are primitives or
    references into a heap of objects; the heap is threaded explicitly through
    the constructors ([Tuple], [Record], ...), and the recursive comparison
    [_isEqual] is given fuel, because on a cyclic heap the source recurses
    without bound.

    Scope of the object model: own enumerable string-keyed data properties,
    dense arrays, one prototype slot per object, and a frozen flag.  Accessor
    properties, proxies, symbol keys and array holes are outside it. *)

From Stdlib Require Import ZArith SpecFloat.
From stdpp Require Import base option list strings pretty.

Open Scope nat_scope.

(** ** Values *)

(** Heap locations. *)
Abbreviation loc := nat.

(** Numbers are IEEE 754 doubles, in the inductive presentation of the
    Standard Library ([spec_float]). *)
Inductive value :=
  | VUndefined
  | VNull
  | VBoolean (b : bool)
  | VNumber (n : spec_float)
  | VBigInt (z : Z)
  | VString (s : string)
  | VSymbol (id : nat)
  | VFunction (l : loc)    (* typeof v === "function" *)
  | VRef (l : loc).        (* typeof v === "object", not null *)

Global Instance value_inhabited : Inhabited value := populate VUndefined.

(** ** Objects and the heap *)

Record object := Obj {
  proto : option loc;               (* [[Prototype]]: null or an object *)
  is_array : bool;                  (* Array exotic object *)
  elems : list value;               (* indexed elements, when [is_array] *)
  props : list (string * value);    (* other own enumerable properties, in key order *)
  frozen : bool                     (* set by Object.freeze *)
}.

(** Intrinsics of the realm: [Object.prototype], [Array.prototype] and
    [Function.prototype]. *)
Definition ObjectPrototype : loc := 0.
Definition ArrayPrototype : loc := 1.
Definition FunctionPrototype : loc := 2.

(** The object literal [{}]. *)
Definition empty_object : object :=
  Obj (Some ObjectPrototype) false [] [] false.

Global Instance object_inhabited : Inhabited object := populate empty_object.

Abbreviation heap := (list object).

(** The heap of a fresh realm.  [Array.prototype] is itself an array. *)
Definition realm : heap :=
  [ Obj None false [] [] false;
    Obj (Some ObjectPrototype) true [] [] false;
    Obj (Some ObjectPrototype) false [] [] false ].

(** Reading a location.  Locations are only ever produced by allocation, so
    they are in range; out of range the read yields [{}], which keeps every
    definition below total. *)
Definition deref (h : heap) (l : loc) : object := h !!! l.

(** Own enumerable string-keyed properties, as [Object.keys] lists them: for
    an array the indices [0 .. length-1] come first. *)
Definition index_props (vs : list value) : list (string * value) :=
  imap (λ i v, (pretty i, v)) vs.

Definition own_props (o : object) : list (string * value) :=
  (if is_array o then index_props (elems o) else []) ++ props o.

Fixpoint get_prop (k : string) (ps : list (string * value)) : option value :=
  match ps with
  | [] => None
  | (k', v) :: ps' => if String.eqb k k' then Some v else get_prop k ps'
  end.

(** [value[key]] on an own data property; [undefined] when there is none. *)
Definition get (o : object) (k : string) : value :=
  default VUndefined (get_prop k (own_props o)).

(** [Array.prototype.includes] on a list of keys. *)
Definition includes (ks : list string) (k : string) : bool :=
  existsb (String.eqb k) ks.

(** ** Primitive operations of the language *)

(** [x === y] *)
Definition strict_eq (x y : value) : bool :=
  match x, y with
  | VUndefined, VUndefined => true
  | VNull, VNull => true
  | VBoolean a, VBoolean b => Bool.eqb a b
  | VNumber a, VNumber b => SFeqb a b
  | VBigInt a, VBigInt b => Z.eqb a b
  | VString a, VString b => String.eqb a b
  | VSymbol a, VSymbol b => Nat.eqb a b
  | VFunction a, VFunction b => Nat.eqb a b
  | VRef a, VRef b => Nat.eqb a b
  | _, _ => false
  end.

(** [typeof x] *)
Definition typeof (x : value) : string :=
  match x with
  | VUndefined => "undefined"
  | VNull => "object"
  | VBoolean _ => "boolean"
  | VNumber _ => "number"
  | VBigInt _ => "bigint"
  | VString _ => "string"
  | VSymbol _ => "symbol"
  | VFunction _ => "function"
  | VRef _ => "object"
  end.

(** [x != null]: loose inequality, false on [null] and on [undefined]. *)
Definition loose_ne_null (x : value) : bool :=
  match x with
  | VUndefined | VNull => false
  | _ => true
  end.

Definition Number_isNaN (x : value) : bool :=
  match x with
  | VNumber S754_nan => true
  | _ => false
  end.

Definition Array_isArray (h : heap) (x : value) : bool :=
  match x with
  | VRef l => is_array (deref h l)
  | _ => false
  end.

Definition Object_isFrozen (h : heap) (x : value) : bool :=
  match x with
  | VRef l | VFunction l => frozen (deref h l)
  | _ => true
  end.

(** The object behind a value of type "object" or "function". *)
Definition to_object (h : heap) (x : value) : object :=
  match x with
  | VRef l | VFunction l => deref h l
  | _ => empty_object
  end.

Definition Object_getPrototypeOf (h : heap) (x : value) : option loc :=
  proto (to_object h x).

Definition Object_keys (h : heap) (x : value) : list string :=
  (own_props (to_object h x)).*1.

Definition length_of (h : heap) (x : value) : nat :=
  length (elems (to_object h x)).

(** [x[i]] for an array index. *)
Definition at_index (h : heap) (x : value) (i : nat) : value :=
  elems (to_object h x) !!! i.

(** [x[key]] for a string key. *)
Definition at_key (h : heap) (x : value) (k : string) : value :=
  get (to_object h x) k.

(** ** Tuple.isEqual *)

(** [value != null && typeof value === "object"] *)
Definition _isObject (x : value) : bool :=
  loose_ne_null x && String.eqb (typeof x) "object".

(** A [for] loop whose body either asks to [return false] or lets the loop go
    on, and which is followed by [return true].  [None] is a body that did not
    return. *)
Fixpoint every {A} (body : A → option bool) (l : list A) : option bool :=
  match l with
  | [] => Some true
  | a :: l' =>
      match body a with
      | None => None
      | Some false => Some false
      | Some true => every body l'
      end
  end.

(** [_isEqual] of the source, with the depth of recursion bounded by [fuel];
    [None] means the bound was reached. *)
Fixpoint _isEqual (fuel : nat) (h : heap) (x y : value) : option bool :=
  match fuel with
  | 0 => None
  | S fuel' =>
      if strict_eq x y || (Number_isNaN x && Number_isNaN y) then Some true
      else if Array_isArray h x && Array_isArray h y then
        if negb (length_of h x =? length_of h y) then Some false
        else if length_of h x =? 0 then Some true
        else every (λ i, _isEqual fuel' h (at_index h x i) (at_index h y i))
                   (seq 0 (length_of h x))
      else if _isObject x && _isObject y then
        if negb (bool_decide (Object_getPrototypeOf h x = Object_getPrototypeOf h y))
        then Some false
        else
          let xKeys := Object_keys h x in
          let yKeys := Object_keys h y in
          if negb (length xKeys =? length yKeys) then Some false
          else if length xKeys =? 0 then Some true
          else every (λ key,
                        if negb (includes yKeys key) then Some false
                        else _isEqual fuel' h (at_key h x key) (at_key h y key))
                     xKeys
      else Some false
  end.

(** [Tuple.isEqual] only calls [_isEqual]; [Record.isEqual] is the same
    function. *)
Definition Tuple_isEqual (fuel : nat) (h : heap) (x y : value) : option bool :=
  _isEqual fuel h x y.

Definition Record_isEqual := Tuple_isEqual.

(** [isEqual(x, y)] returns [b]. *)
Definition returns (h : heap) (x y : value) (b : bool) : Prop :=
  ∃ fuel, Tuple_isEqual fuel h x y = Some b.

(** ** Allocation and the constructors *)

(** Computations that read and extend the heap. *)
Definition M (A : Type) : Type := heap → A * heap.

Global Instance M_ret : MRet M := λ A a h, (a, h).
Global Instance M_bind : MBind M := λ A B f c h, let '(a, h') := c h in f a h'.

Definition alloc (o : object) : M loc := λ h, (length h, h ++ [o]).

Definition freeze_object (o : object) : object :=
  Obj (proto o) (is_array o) (elems o) (props o) true.

(** [Object.freeze(x)] returns [x]; on a primitive it does nothing. *)
Definition Object_freeze (x : value) : M value := λ h,
  match x with
  | VRef l | VFunction l => (x, alter freeze_object l h)
  | _ => (x, h)
  end.

(** A fresh array holding [vs]: a rest parameter, or the result of
    [Array.from]. *)
Definition new_array (vs : list value) : M value :=
  l ← alloc (Obj (Some ArrayPrototype) true vs [] false); mret (VRef l).

(** [Array.from(x)], modelled for an array [x]: a new array with the elements
    of [x].  Strings, array-likes and other iterables are outside the model,
    as is the TypeError on null and undefined; the statements about
    [Array.from] assume [Array_isArray h x]. *)
Definition Array_from (x : value) : M value := λ h,
  new_array (if Array_isArray h x then elems (to_object h x) else []) h.

(** [...x] for an array [x]: reading its elements. *)
Definition spread (x : value) : M (list value) := λ h,
  (elems (to_object h x), h).

(** Defining the data property [k]: an existing key keeps its place and gets
    the new value, a new key goes last. *)
Fixpoint set_prop (k : string) (v : value) (ps : list (string * value))
  : list (string * value) :=
  match ps with
  | [] => [(k, v)]
  | (k', v') :: ps' =>
      if String.eqb k k' then (k, v) :: ps' else (k', v') :: set_prop k v ps'
  end.

(** [o[k] = v] on an ordinary object. *)
Definition put (o : object) (kv : string * value) : object :=
  Obj (proto o) (is_array o) (elems o) (set_prop kv.1 kv.2 (props o)) (frozen o).

(** Defining several properties, one after the other. *)
Definition set_props (ps entries : list (string * value)) : list (string * value) :=
  foldl (λ ps kv, set_prop kv.1 kv.2 ps) ps entries.

(** [Object.assign({}, source)]: the own enumerable properties of [source]
    are assigned, in order, to a new object.  (A source key named
    ["__proto__"] would reach the accessor of [Object.prototype] instead of
    defining a property; statements about the copied properties leave that
    key out.) *)
Definition Object_assign_new (source : value) : M value := λ h,
  (l ← alloc (foldl put empty_object (own_props (to_object h source)));
   mret (VRef l)) h.

(** [Object.fromEntries(entries)], the iterable drained into a list of
    key/value pairs. *)
Definition Object_fromEntries (entries : list (string * value)) : M value :=
  l ← alloc (foldl put empty_object entries); mret (VRef l).

(** *** Tuple *)

Definition Tuple (values : list value) : M value :=
  a ← new_array values; Object_freeze a.

Definition Tuple_of (values : list value) : M value := Tuple values.

Definition Tuple_from (iterable : value) : M value :=
  a ← Array_from iterable; values ← spread a; Tuple values.

Definition Tuple_isTuple (h : heap) (x : value) : bool :=
  Array_isArray h x && Object_isFrozen h x.

Definition Tuple_toArray (x : value) : M value := Array_from x.

(** *** Record *)

Definition Record_ (O : value) : M value :=
  c ← Object_assign_new O; Object_freeze c.

Definition Record_fromEntries (entries : list (string * value)) : M value :=
  c ← Object_fromEntries entries; Object_freeze c.

Definition Record_fromObject (O : value) : M value := Record_ O.

Definition Record_isRecord (h : heap) (x : value) : bool :=
  loose_ne_null x && String.eqb (typeof x) "object" && Object_isFrozen h x.

Definition Record_toObject (x : value) : M value := Object_assign_new x.

(** ** Mutation by the caller *)

(** Any change [f] to the object at [l]: assigning, adding or deleting a
    property, writing an element.  A frozen object rejects it (silently, or
    with a TypeError in strict code) and the heap stays as it was. *)
Definition mutate (h : heap) (m : loc * (object → object)) : heap :=
  if frozen (deref h m.1) then h else alter m.2 m.1 h.

Definition assign (k : string) (v : value) (o : object) : object := put o (k, v).

Definition delete_prop (k : string) (o : object) : object :=
  Obj (proto o) (is_array o) (elems o)
      (filter (λ kv, kv.1 ≠ k) (props o)) (frozen o).

(** ** Numbers used in examples *)

Definition number (z : Z) : value := VNumber (binary_normalize 53 1024 z 0 false).
Definition NaN : value := VNumber S754_nan.
Definition negative_zero : value := VNumber (S754_zero true).

(** ** Notions used in the statements *)

(** The first test of [_isEqual]: SameValueZero. *)
Definition same_value_zero (x y : value) : bool :=
  strict_eq x y || (Number_isNaN x && Number_isNaN y).

(** The values stored in an object under its own keys. *)
Definition children (o : object) : list value := (own_props o).*2.

(** A value is finite (non-cyclic) when it is not an object, or an object
    whose stored values are all finite. *)
Inductive finite_value (h : heap) : value → Prop :=
  | finite_leaf x : _isObject x = false → finite_value h x
  | finite_node l :
      (∀ v, v ∈ children (deref h l) → finite_value h v) →
      finite_value h (VRef l).

(** A decision procedure for [finite_value], looking [depth] levels deep. *)
Fixpoint finite_upto (depth : nat) (h : heap) (x : value) : bool :=
  match x with
  | VRef l =>
      match depth with
      | 0 => false
      | S d => forallb (finite_upto d h) (children (deref h l))
      end
  | _ => true
  end.

(** [Object.keys] never lists a key twice. *)
Definition wf_object (o : object) : Prop := NoDup (own_props o).*1.
Definition wf_heap (h : heap) : Prop := Forall wf_object h.

Global Instance wf_object_dec o : Decision (wf_object o).
Proof. unfold wf_object. apply _. Defined.

Global Instance wf_heap_dec h : Decision (wf_heap h).
Proof. unfold wf_heap. apply _. Defined.

(** The same object with its named properties enumerated in another order. *)
Definition reordered (o o' : object) : Prop :=
  proto o = proto o' ∧ is_array o = is_array o' ∧ elems o = elems o' ∧
  frozen o = frozen o' ∧ props o ≡ₚ props o'.

Definition heap_reordered (h h' : heap) : Prop := Forall2 reordered h h'.

(** The primitive values of the language. *)
Definition is_primitive (x : value) : bool :=
  match x with
  | VRef _ | VFunction _ => false
  | _ => true
  end.

(** What a caller can do to the heap after a constructor has returned:
    change an object, or allocate one. *)
Inductive action :=
  | Change (l : loc) (f : object → object)
  | New (o : object).

Definition perform (h : heap) (a : action) : heap :=
  match a with
  | Change l f => mutate h (l, f)
  | New o => h ++ [o]
  end.

(** The two ways of being of different kinds: exactly one of the two is an
    array, the other being an object that is not; or both are primitives and
    they are not the same value. *)
Definition array_and_object (h : heap) (x y : value) : Prop :=
  Array_isArray h x = true ∧ _isObject y = true ∧ Array_isArray h y = false.

Definition distinct_primitives (x y : value) : Prop :=
  is_primitive x = true ∧ is_primitive y = true ∧ same_value_zero x y = false.

Definition mismatched_kinds (h : heap) (x y : value) : Prop :=
  array_and_object h x y ∨ array_and_object h y x ∨ distinct_primitives x y.

(** A value that is primitive, or refers to an object of the heap; and a heap
    whose objects hold such values only. *)
Definition allocated (h : heap) (x : value) : bool :=
  match x with
  | VRef l | VFunction l => l <? length h
  | _ => true
  end.

Definition closed_heap (h : heap) : Prop :=
  Forall (λ o, Forall (λ v, allocated h v = true) (children o)) h.

Global Instance closed_heap_dec h : Decision (closed_heap h).
Proof. unfold closed_heap. apply _. Defined.

(** ** Heaps used in examples *)

(** Two object literals with the same keys and values, written in two
    orders: [{a: 1, b: 2}] and [{b: 2, a: 1}]. *)
Definition two_records : heap :=
  realm ++
  [ Obj (Some ObjectPrototype) false [] [("a", number 1); ("b", number 2)] false;
    Obj (Some ObjectPrototype) false [] [("b", number 2); ("a", number 1)] false ].

(** An array [[7]] and the ordinary object [{0: 7}] created with
    [Object.create(Array.prototype)]. *)
Definition array_and_lookalike : heap :=
  realm ++
  [ Obj (Some ArrayPrototype) true [number 7] [] false;
    Obj (Some ArrayPrototype) false [] [("0", number 7)] false ].

(** Two tuples holding equal records, as in the test suite:
    [Tuple.of(4, 5, Record.fromEntries([["a", 1], ["b", 2]]))] and
    [Tuple.of(4, 5, Record.fromObject({a: 1, b: 2}))]. *)
Definition tuples_of_records : (value * value) * heap :=
  (m1 ← Record_fromEntries [("a", number 1); ("b", number 2)];
   o ← alloc (Obj (Some ObjectPrototype) false []
                  [("a", number 1); ("b", number 2)] false);
   m2 ← Record_fromObject (VRef o);
   t1 ← Tuple_of [number 4; number 5; m1];
   t2 ← Tuple_of [number 4; number 5; m2];
   mret (t1, t2)) realm.

(** The object literal [{a: 1}], and a caller who then sets [a], adds [b],
    deletes [a], and tries to set [a] on the object allocated next. *)
Definition one_record : heap :=
  realm ++ [ Obj (Some ObjectPrototype) false [] [("a", number 1)] false ].

Definition changes_to_one_record : list action :=
  [ Change 3 (assign "a" (number 2)); Change 3 (assign "b" NaN);
    Change 3 (delete_prop "a"); Change 4 (assign "a" (number 2)) ].

(** Two arrays that each hold themselves: [a = []; a[0] = a] and likewise
    [b]. *)
Definition two_cycles : heap :=
  realm ++
  [ Obj (Some ArrayPrototype) true [VRef 3] [] false;
    Obj (Some ArrayPrototype) true [VRef 4] [] false ].

(** A frozen function: [Object.freeze(function () {})]. *)
Definition frozen_function : heap :=
  realm ++ [ Obj (Some FunctionPrototype) false [] [] true ].

(** Running the constructors of a concrete example, one after the other. *)
Ltac run_heap :=
  repeat match goal with
  | |- context [match ?c with (_, _) => _ end] =>
      let r := eval vm_compute in c in
      change c with r; cbv beta iota zeta
  end.

(** * Properties *)

(** ** The primitive operations *)

Lemma _isObject_ref x : _isObject x = true ↔ ∃ l, x = VRef l.
Proof.
  destruct x; cbn; (split; [try discriminate; eauto|]).
  all: intros [l' Heq]; done || discriminate Heq.
Qed.

Lemma SFeqb_sym a b : SFeqb a b = SFeqb b a.
Proof.
  unfold SFeqb, SFcompare.
  destruct a as [s1|s1| |s1 m1 e1], b as [s2|s2| |s2 m2 e2];
    try destruct s1; try destruct s2; try reflexivity.
  all: rewrite (Z.compare_antisym e1 e2);
    destruct (e1 ?= e2)%Z; try reflexivity; simpl.
  all: change (Pos.compare_cont Eq m1 m2) with (m1 ?= m2)%positive;
    change (Pos.compare_cont Eq m2 m1) with (m2 ?= m1)%positive;
    rewrite (Pos.compare_antisym m1 m2);
    destruct (m1 ?= m2)%positive; reflexivity.
Qed.

Lemma strict_eq_sym x y : strict_eq x y = strict_eq y x.
Proof.
  destruct x, y; simpl; try reflexivity.
  - by destruct b, b0.
  - apply SFeqb_sym.
  - apply Z.eqb_sym.
  - apply String.eqb_sym.
  - apply Nat.eqb_sym.
  - apply Nat.eqb_sym.
  - apply Nat.eqb_sym.
Qed.

Lemma strict_eq_ref a b : strict_eq (VRef a) (VRef b) = bool_decide (a = b).
Proof.
  simpl. destruct (Nat.eqb_spec a b); [by rewrite bool_decide_eq_true_2
                                      |by rewrite bool_decide_eq_false_2].
Qed.

Lemma includes_elem_of ks k : includes ks k = true ↔ k ∈ ks.
Proof.
  unfold includes. rewrite existsb_exists. split.
  - intros (k' & Hin & Heq). apply String.eqb_eq in Heq as ->.
    by apply list_elem_of_In.
  - intros Hin. exists k. split; [by apply list_elem_of_In|apply String.eqb_refl].
Qed.

(** ** The loop *)

Section every.
Context {A : Type}.
Implicit Types (body : A → option bool) (l : list A).

Lemma every_true body l :
  every body l = Some true ↔ ∀ a, a ∈ l → body a = Some true.
Proof.
  induction l as [|a l IH]; simpl.
  - split; [intros _ a Ha; inversion Ha|done].
  - destruct (body a) as [[]|] eqn:Ha.
    + rewrite IH. split.
      * intros Hl a' [->|Ha']%elem_of_cons; auto.
      * intros Hl a' Ha'. apply Hl. by right.
    + split; [done|]. intros Hl. specialize (Hl a). rewrite Ha in Hl.
      discriminate Hl. by left.
    + split; [done|]. intros Hl. specialize (Hl a). rewrite Ha in Hl.
      discriminate Hl. by left.
Qed.

(** The loop returns false exactly when some body does, all the bodies
    before it having let the loop go on. *)
Lemma every_false body l :
  every body l = Some false ↔
  ∃ l1 a l2, l = l1 ++ a :: l2 ∧ body a = Some false ∧
             ∀ a', a' ∈ l1 → body a' = Some true.
Proof.
  induction l as [|a l IH]; simpl.
  - split; [done|]. intros ([|??] & ? & ? & ? & _); done.
  - destruct (body a) as [[]|] eqn:Ha.
    + rewrite IH. split.
      * intros (l1 & a' & l2 & -> & Hf & Ht). exists (a :: l1), a', l2.
        split_and!; [done..|]. intros a'' [->|?]%elem_of_cons; auto.
      * intros ([|a0 l1] & a' & l2 & Heq & Hf & Ht); simplify_eq/=.
        exists l1, a', l2. split_and!; [done..|].
        intros a'' ?. apply Ht. by right.
    + split; [|done]. intros _. exists [], a, l. split_and!; [done..|].
      intros a' Ha'. inversion Ha'.
    + split; [done|]. intros ([|a0 l1] & a' & l2 & Heq & Hf & Ht);
        simplify_eq/=. specialize (Ht a0). rewrite Ha in Ht.
      discriminate Ht. by left.
Qed.

Lemma every_mono body body' l b :
  (∀ a b', a ∈ l → body a = Some b' → body' a = Some b') →
  every body l = Some b → every body' l = Some b.
Proof.
  induction l as [|a l IH]; simpl; [done|]. intros Hb.
  destruct (body a) as [[]|] eqn:Ha; [| |done].
  - rewrite (Hb a true) by (done || by left).
    apply IH. intros a' b' ?. apply Hb. by right.
  - rewrite (Hb a false) by (done || by left). done.
Qed.

Lemma every_total body l :
  (∀ a, a ∈ l → is_Some (body a)) → is_Some (every body l).
Proof.
  induction l as [|a l IH]; simpl; [by eexists|]. intros Hb.
  destruct (Hb a) as [[] ->]; [by left| |by eexists].
  apply IH. intros a' ?. apply Hb. by right.
Qed.
End every.

(** ** Unfolding one call of [_isEqual] *)

Section one_call.
Context (h : heap).
Implicit Types (x y : value) (fuel : nat).

Lemma same_value_zero_sym x y : same_value_zero x y = same_value_zero y x.
Proof.
  unfold same_value_zero.
  by rewrite strict_eq_sym, (andb_comm (Number_isNaN x)).
Qed.

Lemma _isEqual_same fuel x y :
  same_value_zero x y = true → _isEqual (S fuel) h x y = Some true.
Proof. unfold same_value_zero. simpl. by intros ->. Qed.

Lemma _isEqual_arrays fuel x y :
  same_value_zero x y = false →
  Array_isArray h x = true → Array_isArray h y = true →
  _isEqual (S fuel) h x y =
    if negb (length_of h x =? length_of h y) then Some false
    else every (λ i, _isEqual fuel h (at_index h x i) (at_index h y i))
               (seq 0 (length_of h x)).
Proof.
  unfold same_value_zero. simpl. intros -> -> ->. simpl.
  destruct (length_of h x =? length_of h y); simpl; [|done].
  destruct (Nat.eqb_spec (length_of h x) 0) as [->|]; done.
Qed.

Lemma _isEqual_objects fuel x y :
  same_value_zero x y = false →
  Array_isArray h x && Array_isArray h y = false →
  _isObject x = true → _isObject y = true →
  _isEqual (S fuel) h x y =
    if negb (bool_decide (Object_getPrototypeOf h x = Object_getPrototypeOf h y))
    then Some false
    else if negb (length (Object_keys h x) =? length (Object_keys h y))
    then Some false
    else every (λ key,
                  if negb (includes (Object_keys h y) key) then Some false
                  else _isEqual fuel h (at_key h x key) (at_key h y key))
               (Object_keys h x).
Proof.
  unfold same_value_zero. simpl. intros -> -> -> ->. simpl.
  destruct (bool_decide _); simpl; [|done].
  destruct (length (Object_keys h x) =? length (Object_keys h y)); simpl; [|done].
  destruct (Nat.eqb_spec (length (Object_keys h x)) 0) as [Hx|]; [|done].
  by destruct (Object_keys h x).
Qed.

Lemma _isEqual_other fuel x y :
  same_value_zero x y = false →
  Array_isArray h x && Array_isArray h y = false →
  _isObject x && _isObject y = false →
  _isEqual (S fuel) h x y = Some false.
Proof. unfold same_value_zero. simpl. by intros -> -> ->. Qed.

(** More fuel never changes a result. *)
Lemma _isEqual_mono fuel : ∀ fuel' x y b,
  fuel ≤ fuel' → _isEqual fuel h x y = Some b → _isEqual fuel' h x y = Some b.
Proof.
  induction fuel as [|n IH]; intros [|m] x y b Hle; [done|done|lia|].
  destruct (same_value_zero x y) eqn:Hs.
  { by rewrite !_isEqual_same. }
  destruct (Array_isArray h x && Array_isArray h y) eqn:Ha.
  { apply andb_prop in Ha as [Hx Hy]. rewrite !_isEqual_arrays by done.
    destruct (negb _); [done|]. apply every_mono.
    intros i b' _. apply IH. lia. }
  destruct (_isObject x && _isObject y) eqn:Ho.
  { apply andb_prop in Ho as [Hx Hy]. rewrite !_isEqual_objects by done.
    destruct (negb _); [done|]. destruct (negb _); [done|].
    apply every_mono. intros k b' _. destruct (negb _); [done|].
    apply IH. lia. }
  by rewrite !_isEqual_other.
Qed.

Lemma returns_det x y b b' : returns h x y b → returns h x y b' → b = b'.
Proof.
  intros [n Hn] [m Hm]. unfold Tuple_isEqual in *.
  apply (_isEqual_mono _ (n `max` m)) in Hn; [|lia].
  apply (_isEqual_mono _ (n `max` m)) in Hm; [|lia]. congruence.
Qed.

Lemma returns_fuel x y b fuel fuel' :
  Tuple_isEqual fuel h x y = Some b → fuel ≤ fuel' →
  Tuple_isEqual fuel' h x y = Some b.
Proof. intros H ?. by eapply _isEqual_mono. Qed.
End one_call.

(** One amount of fuel that is enough for every element of a list. *)
Lemma common_fuel {A} (P : nat → A → Prop) (l : list A) :
  (∀ a, a ∈ l → ∃ n, ∀ m, n ≤ m → P m a) →
  ∃ n, ∀ m, n ≤ m → ∀ a, a ∈ l → P m a.
Proof.
  induction l as [|a l IH]; intros Hl.
  - exists 0. intros m _ a Ha. inversion Ha.
  - destruct (Hl a) as [n1 H1]; [by left|].
    destruct IH as [n2 H2]; [intros a' ?; apply Hl; by right|].
    exists (n1 `max` n2). intros m Hm a' [->|Ha']%elem_of_cons.
    + apply H1. lia.
    + apply H2; [lia|done].
Qed.

(** ** Finite values *)

Lemma finite_upto_sound depth h : ∀ x,
  finite_upto depth h x = true → finite_value h x.
Proof.
  induction depth as [|d IH]; intros x Hx.
  - by destruct x; try apply finite_leaf.
  - destruct x; try (by apply finite_leaf). simpl in Hx.
    apply finite_node. intros v Hv. apply IH.
    rewrite forallb_forall in Hx. apply Hx. by apply list_elem_of_In.
Qed.

Lemma get_prop_Some k ps v : get_prop k ps = Some v → (k, v) ∈ ps.
Proof.
  induction ps as [|[k' v'] ps IH]; simpl; [done|].
  destruct (String.eqb_spec k k') as [->|].
  - intros [= ->]. by left.
  - intros ?. right. auto.
Qed.

Lemma get_prop_is_Some k ps : k ∈ ps.*1 → is_Some (get_prop k ps).
Proof.
  induction ps as [|[k' v'] ps IH]; simpl; [by intros ?%elem_of_nil|].
  destruct (String.eqb_spec k k') as [->|]; [by eexists|].
  intros [?|?]%elem_of_cons; [done|auto].
Qed.

Lemma get_prop_NoDup k v ps : NoDup ps.*1 → (k, v) ∈ ps → get_prop k ps = Some v.
Proof.
  induction ps as [|[k' v'] ps IH]; simpl; [by intros _ ?%elem_of_nil|].
  intros [Hk' Hnd]%NoDup_cons [[= -> ->]|Hin]%elem_of_cons.
  - by rewrite String.eqb_refl.
  - destruct (String.eqb_spec k k') as [->|]; [|auto].
    destruct Hk'. apply list_elem_of_fmap. by exists (k', v).
Qed.

Lemma at_key_child h l k :
  k ∈ Object_keys h (VRef l) → at_key h (VRef l) k ∈ children (deref h l).
Proof.
  unfold Object_keys, at_key, get, children. simpl. intros Hk.
  destruct (get_prop_is_Some _ _ Hk) as [v Hv]. rewrite Hv. simpl.
  apply list_elem_of_fmap. exists (k, v). split; [done|].
  by apply get_prop_Some.
Qed.

Lemma index_props_snd vs : (index_props vs).*2 = vs.
Proof.
  unfold index_props. rewrite fmap_imap. simpl.
  induction vs as [|v vs IH] using rev_ind; [done|].
  rewrite imap_app. simpl. by rewrite IH.
Qed.

Lemma at_index_child h l i :
  Array_isArray h (VRef l) = true → i < length_of h (VRef l) →
  at_index h (VRef l) i ∈ children (deref h l).
Proof.
  unfold Array_isArray, length_of, at_index, children, own_props. simpl.
  intros -> Hi. rewrite fmap_app, index_props_snd. apply elem_of_app. left.
  apply list_elem_of_lookup. exists i. by apply list_lookup_lookup_total_lt.
Qed.

(** [_isEqual] returns on every finite first argument. *)
Lemma _isEqual_total h x :
  finite_value h x →
  ∀ y, ∃ fuel, ∀ fuel', fuel ≤ fuel' → is_Some (_isEqual fuel' h x y).
Proof.
  induction 1 as [x Hx|l _ IH]; intros y.
  - exists 1. intros [|m] ?; [lia|].
    destruct (same_value_zero x y) eqn:Hs.
    { rewrite _isEqual_same by done. by eexists. }
    rewrite _isEqual_other; [by eexists|done|..].
    + by destruct x.
    + by rewrite Hx.
  - destruct (same_value_zero (VRef l) y) eqn:Hs.
    { exists 1. intros [|m] ?; [lia|]. rewrite _isEqual_same by done. by eexists. }
    destruct (Array_isArray h (VRef l) && Array_isArray h y) eqn:Ha.
    { apply andb_prop in Ha as [Hx Hy].
      destruct (common_fuel
        (λ m i, is_Some (_isEqual m h (at_index h (VRef l) i) (at_index h y i)))
        (seq 0 (length_of h (VRef l)))) as [n Hn].
      { intros i [_ Hi]%elem_of_seq. apply IH. apply at_index_child; [done|lia]. }
      exists (S n). intros [|m] Hm; [lia|]. rewrite _isEqual_arrays by done.
      destruct (negb _); [by eexists|]. apply every_total.
      intros i Hi. apply Hn; [lia|done]. }
    destruct (_isObject y) eqn:Ho.
    2:{ exists 1. intros [|m] ?; [lia|]. rewrite _isEqual_other; [by eexists|done..|].
        by rewrite Ho, andb_false_r. }
    destruct (common_fuel
      (λ m k, is_Some (_isEqual m h (at_key h (VRef l) k) (at_key h y k)))
      (Object_keys h (VRef l))) as [n Hn].
    { intros k Hk. apply IH. by apply at_key_child. }
    exists (S n). intros [|m] Hm; [lia|]. rewrite _isEqual_objects by done.
    destruct (negb _); [by eexists|]. destruct (negb _); [by eexists|].
    apply every_total. intros k Hk. destruct (negb _); [by eexists|].
    apply Hn; [lia|done].
Qed.

(** The depth of recursion is at most the depth of nesting of the first
    argument, plus one. *)
Lemma _isEqual_depth h depth : ∀ x y fuel,
  finite_upto depth h x = true → depth < fuel → is_Some (_isEqual fuel h x y).
Proof.
  assert (∀ x y m, _isObject x = false → is_Some (_isEqual (S m) h x y)) as Hleaf.
  { intros x y m Hx. destruct (same_value_zero x y) eqn:Hs.
    { rewrite _isEqual_same by done. by eexists. }
    rewrite _isEqual_other; [by eexists|done|by destruct x|by rewrite Hx]. }
  induction depth as [|d IH]; intros x y [|m] Hx Hlt; try lia.
  { apply Hleaf. by destruct x. }
  destruct (_isObject x) eqn:Ho; [|by apply Hleaf].
  apply _isObject_ref in Ho as [l ->]. simpl in Hx.
  rewrite forallb_forall in Hx.
  destruct (same_value_zero (VRef l) y) eqn:Hs.
  { rewrite _isEqual_same by done. by eexists. }
  destruct (Array_isArray h (VRef l) && Array_isArray h y) eqn:Ha.
  { apply andb_prop in Ha as [Hax Hay]. rewrite _isEqual_arrays by done.
    destruct (negb _); [by eexists|]. apply every_total.
    intros i [_ Hi]%elem_of_seq. apply IH; [|lia].
    apply Hx, list_elem_of_In, at_index_child; [done|lia]. }
  destruct (_isObject y) eqn:Hy.
  2:{ rewrite _isEqual_other; [by eexists|done..|by rewrite Hy, andb_false_r]. }
  rewrite _isEqual_objects by done.
  destruct (negb _); [by eexists|]. destruct (negb _); [by eexists|].
  apply every_total. intros k Hk. destruct (negb _); [by eexists|].
  apply IH; [|lia]. by apply Hx, list_elem_of_In, at_key_child.
Qed.

Lemma returns_stable h x y :
  finite_value h x →
  ∃ b fuel, ∀ fuel', fuel ≤ fuel' → Tuple_isEqual fuel' h x y = Some b.
Proof.
  intros Hx. destruct (_isEqual_total h x Hx y) as [n Hn].
  destruct (Hn n) as [b Hb]; [done|]. exists b, n. intros m Hm.
  by eapply _isEqual_mono.
Qed.

Lemma returns_total h x y : finite_value h x → ∃ b, returns h x y b.
Proof.
  intros Hx. destruct (_isEqual_total h x Hx y) as [n Hn].
  destruct (Hn n) as [b Hb]; [done|]. exists b, n. done.
Qed.

(** ** Well-formed heaps and the order of keys *)

Lemma wf_object_empty : wf_object empty_object.
Proof. apply NoDup_nil_2. Qed.

Lemma wf_deref h l : wf_heap h → wf_object (deref h l).
Proof.
  intros Hwf. unfold deref. rewrite list_lookup_total_alt.
  destruct (h !! l) as [o|] eqn:Ho; simpl.
  - unfold wf_heap in Hwf. by eapply Forall_lookup_1.
  - apply wf_object_empty.
Qed.

Lemma wf_to_object h x : wf_heap h → wf_object (to_object h x).
Proof. intros ?. destruct x; simpl; auto using wf_object_empty, wf_deref. Qed.

Lemma get_prop_None k ps : get_prop k ps = None ↔ k ∉ ps.*1.
Proof.
  induction ps as [|[k' v'] ps IH]; simpl.
  - split; [intros _ ?%elem_of_nil; done|done].
  - rewrite not_elem_of_cons. destruct (String.eqb_spec k k') as [->|]; [|tauto].
    split; [done|]. by intros [? _].
Qed.

Lemma get_prop_perm k ps ps' :
  NoDup ps.*1 → ps ≡ₚ ps' → get_prop k ps = get_prop k ps'.
Proof.
  intros Hnd Hp. destruct (get_prop k ps) as [v|] eqn:Hk.
  - symmetry. apply get_prop_NoDup; [by rewrite <-Hp|].
    rewrite <-Hp. by apply get_prop_Some.
  - symmetry. apply get_prop_None. rewrite <-Hp. by apply get_prop_None.
Qed.

Lemma includes_perm ks ks' k : ks ≡ₚ ks' → includes ks k = includes ks' k.
Proof.
  intros Hp. apply eq_true_iff_eq. rewrite !includes_elem_of. by rewrite Hp.
Qed.

(** With as many keys on both sides and none listed twice, the keys of [x]
    all being keys of [y] makes the two key sets the same. *)
Lemma keys_included_perm (xs ys : list string) :
  NoDup xs → length xs = length ys → (∀ k, k ∈ xs → k ∈ ys) → xs ≡ₚ ys.
Proof.
  intros Hnd Hlen Hsub. apply submseteq_length_Permutation; [|lia].
  by apply NoDup_submseteq.
Qed.

Lemma reordered_refl o : reordered o o.
Proof. by repeat split. Qed.

Lemma reordered_sym o o' : reordered o o' → reordered o' o.
Proof. intros (? & ? & ? & ? & ?). by repeat split. Qed.

Lemma reordered_own_props o o' : reordered o o' → own_props o ≡ₚ own_props o'.
Proof.
  intros (_ & Ha & He & _ & Hp). unfold own_props. by rewrite Ha, He, Hp.
Qed.

Lemma reordered_wf o o' : reordered o o' → wf_object o → wf_object o'.
Proof.
  intros Hr. unfold wf_object. by rewrite (reordered_own_props _ _ Hr).
Qed.

Lemma heap_reordered_sym h h' : heap_reordered h h' → heap_reordered h' h.
Proof.
  unfold heap_reordered. intros H. apply Forall2_flip.
  eapply Forall2_impl; [done|]. apply reordered_sym.
Qed.

Lemma heap_reordered_wf h h' : heap_reordered h h' → wf_heap h → wf_heap h'.
Proof.
  unfold heap_reordered, wf_heap. induction 1 as [|o o' h h' Hr _ IH]; [done|].
  intros [??]%Forall_cons. constructor; [by eapply reordered_wf|auto].
Qed.

Lemma heap_reordered_deref h h' l :
  heap_reordered h h' → reordered (deref h l) (deref h' l).
Proof.
  intros Hr. unfold deref. rewrite !list_lookup_total_alt.
  pose proof (Forall2_lookup reordered h h') as [Hl _]. specialize (Hl Hr l).
  destruct Hl; simpl; [done|apply reordered_refl].
Qed.

Lemma heap_reordered_to_object h h' x :
  heap_reordered h h' → reordered (to_object h x) (to_object h' x).
Proof.
  intros ?. destruct x; simpl; auto using reordered_refl, heap_reordered_deref.
Qed.

Section reordering.
Context (h h' : heap) (Hr : heap_reordered h h') (Hwf : wf_heap h).

Lemma reordered_isArray x : Array_isArray h' x = Array_isArray h x.
Proof.
  destruct x; try done. simpl.
  by destruct (heap_reordered_deref _ _ l Hr) as (_ & -> & _).
Qed.

Lemma reordered_length x : length_of h' x = length_of h x.
Proof.
  unfold length_of.
  by destruct (heap_reordered_to_object _ _ x Hr) as (_ & _ & -> & _).
Qed.

Lemma reordered_at_index x i : at_index h' x i = at_index h x i.
Proof.
  unfold at_index.
  by destruct (heap_reordered_to_object _ _ x Hr) as (_ & _ & -> & _).
Qed.

Lemma reordered_proto x : Object_getPrototypeOf h' x = Object_getPrototypeOf h x.
Proof.
  unfold Object_getPrototypeOf.
  by destruct (heap_reordered_to_object _ _ x Hr) as (-> & _).
Qed.

Lemma reordered_keys x : Object_keys h x ≡ₚ Object_keys h' x.
Proof.
  unfold Object_keys.
  by rewrite (reordered_own_props _ _ (heap_reordered_to_object _ _ x Hr)).
Qed.

Lemma reordered_at_key x k : at_key h' x k = at_key h x k.
Proof.
  unfold at_key, get. f_equal. symmetry. apply get_prop_perm.
  - by apply wf_to_object.
  - apply reordered_own_props. by apply heap_reordered_to_object.
Qed.

Lemma reordered_finite x : finite_value h x → finite_value h' x.
Proof.
  induction 1 as [x Hx|l _ IH]; [by apply finite_leaf|].
  apply finite_node. intros v Hv. apply IH. revert Hv. unfold children.
  by rewrite (reordered_own_props _ _ (heap_reordered_deref _ _ l Hr)).
Qed.

(** A comparison that succeeds keeps succeeding, with the same fuel, when
    the keys are enumerated in another order. *)
Lemma reordered_true fuel : ∀ x y,
  _isEqual fuel h x y = Some true → _isEqual fuel h' x y = Some true.
Proof.
  induction fuel as [|n IH]; intros x y; [done|].
  destruct (same_value_zero x y) eqn:Hs.
  { by rewrite !_isEqual_same. }
  destruct (Array_isArray h x && Array_isArray h y) eqn:Ha.
  { apply andb_prop in Ha as [Hx Hy].
    rewrite !_isEqual_arrays by (done || by rewrite reordered_isArray).
    rewrite !reordered_length. destruct (negb _); [done|].
    rewrite !every_true. intros Hall i Hi.
    rewrite !reordered_at_index. auto. }
  destruct (_isObject x && _isObject y) eqn:Ho.
  { apply andb_prop in Ho as [Hx Hy].
    rewrite !_isEqual_objects by (done || by rewrite !reordered_isArray).
    rewrite !reordered_proto. destruct (negb _); [done|].
    rewrite <-(Permutation_length (reordered_keys x)),
      <-(Permutation_length (reordered_keys y)).
    destruct (negb _); [done|].
    rewrite !every_true. intros Hall k Hk.
    rewrite <-(includes_perm _ _ k (reordered_keys y)).
    rewrite <-(reordered_keys x) in Hk. specialize (Hall k Hk).
    destruct (negb _); [done|]. rewrite !reordered_at_key. auto. }
  by rewrite !_isEqual_other by (done || by rewrite !reordered_isArray).
Qed.
End reordering.

(** The result of [isEqual] on a finite value does not depend on the order
    in which the keys of any object are enumerated. *)
Lemma returns_reordered h h' x y b :
  wf_heap h → heap_reordered h h' → finite_value h x →
  returns h x y b → returns h' x y b.
Proof.
  intros Hwf Hr Hfin [n Hn]. destruct b.
  { exists n. by apply (reordered_true h h'). }
  destruct (returns_total h' x y) as [[] [m Hm]];
    [by eapply reordered_finite| |by exists m].
  apply (reordered_true h' h) in Hm;
    [|by apply heap_reordered_sym|by eapply heap_reordered_wf].
  assert (true = false) by (eapply (returns_det h x y); by eexists). done.
Qed.

(** ** Swapping the arguments *)

Section swapping.
Context (h : heap) (Hwf : wf_heap h).

Lemma Object_keys_NoDup x : NoDup (Object_keys h x).
Proof. by apply wf_to_object. Qed.

(** A comparison that succeeds also succeeds, with the same fuel, on the
    swapped arguments. *)
Lemma swapped_true fuel : ∀ x y,
  _isEqual fuel h x y = Some true → _isEqual fuel h y x = Some true.
Proof.
  induction fuel as [|n IH]; intros x y; [done|].
  destruct (same_value_zero x y) eqn:Hs.
  { intros _. apply _isEqual_same. by rewrite same_value_zero_sym. }
  assert (same_value_zero y x = false) as Hs' by by rewrite same_value_zero_sym.
  destruct (Array_isArray h x && Array_isArray h y) eqn:Ha.
  { apply andb_prop in Ha as [Hx Hy]. rewrite !_isEqual_arrays by done.
    rewrite (Nat.eqb_sym (length_of h y)).
    destruct (Nat.eqb_spec (length_of h x) (length_of h y)) as [Hlen|];
      [|done]; simpl.
    rewrite !every_true, <-Hlen. auto. }
  destruct (_isObject x && _isObject y) eqn:Ho.
  { apply andb_prop in Ho as [Hx Hy].
    rewrite !_isEqual_objects by (done || by rewrite andb_comm).
    destruct (decide (Object_getPrototypeOf h x = Object_getPrototypeOf h y))
      as [Hp|Hp].
    2:{ by rewrite bool_decide_eq_false_2. }
    rewrite !bool_decide_eq_true_2 by done. simpl.
    rewrite (Nat.eqb_sym (length (Object_keys h y))).
    destruct (Nat.eqb_spec (length (Object_keys h x)) (length (Object_keys h y)))
      as [Hlen|]; [|done]; simpl.
    rewrite !every_true. intros Hall.
    assert (Object_keys h x ≡ₚ Object_keys h y) as Hperm.
    { apply keys_included_perm; [apply Object_keys_NoDup|done|].
      intros k Hk. specialize (Hall k Hk). apply includes_elem_of.
      by destruct (includes (Object_keys h y) k). }
    intros k Hk. rewrite <-Hperm in Hk.
    rewrite (proj2 (includes_elem_of _ _) Hk). simpl.
    specialize (Hall k Hk). destruct (negb _); [done|]. auto. }
  intros Hf. rewrite _isEqual_other in Hf by done. done.
Qed.

Lemma returns_swapped x y b :
  finite_value h x → finite_value h y →
  returns h x y b → returns h y x b.
Proof.
  intros Hx Hy [n Hn]. destruct b.
  { exists n. by apply swapped_true. }
  destruct (returns_total h y x Hy) as [[] [m Hm]]; [|by exists m].
  apply swapped_true in Hm.
  assert (true = false) by (eapply (returns_det h x y); by eexists). done.
Qed.
End swapping.

(** ** The constructors *)

Lemma deref_new (h : heap) o : deref (h ++ [o]) (length h) = o.
Proof. unfold deref. by apply list_lookup_total_middle. Qed.

Lemma deref_old (h os : heap) l : l < length h → deref (h ++ os) l = deref h l.
Proof. unfold deref. apply lookup_total_app_l. Qed.

Lemma freeze_new (f : object → object) (h : heap) o : alter f (length h) (h ++ [o]) = h ++ [f o].
Proof. by rewrite <-(Nat.add_0_r (length h)), alter_app_r. Qed.

Lemma Tuple_run vs h :
  Tuple vs h = (VRef (length h), h ++ [Obj (Some ArrayPrototype) true vs [] true]).
Proof.
  unfold Tuple, new_array, alloc, mbind, M_bind, mret, M_ret. simpl.
  by rewrite freeze_new.
Qed.

Lemma Array_from_run x h :
  Array_from x h =
    (VRef (length h),
     h ++ [Obj (Some ArrayPrototype) true
               (if Array_isArray h x then elems (to_object h x) else []) [] false]).
Proof. done. Qed.

Lemma props_foldl_put o entries :
  foldl put o entries =
    Obj (proto o) (is_array o) (elems o) (set_props (props o) entries) (frozen o).
Proof.
  revert o. induction entries as [|kv entries IH]; intros o; simpl.
  - by destruct o.
  - by rewrite IH.
Qed.

Lemma Record_run O h :
  Record_ O h =
    (VRef (length h),
     h ++ [Obj (Some ObjectPrototype) false []
               (set_props [] (own_props (to_object h O))) true]).
Proof.
  unfold Record_, Object_assign_new, alloc, mbind, M_bind, mret, M_ret. simpl.
  by rewrite freeze_new, props_foldl_put.
Qed.

Lemma Record_fromEntries_run entries h :
  Record_fromEntries entries h =
    (VRef (length h),
     h ++ [Obj (Some ObjectPrototype) false [] (set_props [] entries) true]).
Proof.
  unfold Record_fromEntries, Object_fromEntries, alloc, mbind, M_bind, mret, M_ret.
  simpl. by rewrite freeze_new, props_foldl_put.
Qed.

(** *** Defining properties *)

Lemma get_prop_set_prop k v k' ps :
  get_prop k' (set_prop k v ps) =
    if String.eqb k' k then Some v else get_prop k' ps.
Proof.
  induction ps as [|[k0 v0] ps IH]; simpl.
  - done.
  - destruct (String.eqb_spec k k0) as [->|Hk]; simpl.
    + by destruct (String.eqb k' k0).
    + rewrite IH. destruct (String.eqb_spec k' k0) as [->|]; [|done].
      destruct (String.eqb_spec k0 k) as [->|]; done.
Qed.

Lemma set_prop_keys k v k' ps :
  k' ∈ (set_prop k v ps).*1 ↔ k' = k ∨ k' ∈ ps.*1.
Proof.
  induction ps as [|[k0 v0] ps IH]; simpl.
  - rewrite list_elem_of_singleton. split; [by left|]. by intros [?|?%elem_of_nil].
  - destruct (String.eqb_spec k k0) as [->|Hk]; simpl;
      rewrite !elem_of_cons; [tauto|]. rewrite IH. tauto.
Qed.

Lemma set_prop_NoDup k v ps : NoDup ps.*1 → NoDup (set_prop k v ps).*1.
Proof.
  induction ps as [|[k0 v0] ps IH]; simpl.
  - intros _. apply NoDup_singleton.
  - intros [Hk0 Hnd]%NoDup_cons.
    destruct (String.eqb_spec k k0) as [->|Hk]; simpl; apply NoDup_cons.
    + done.
    + split; [|auto]. rewrite set_prop_keys. by intros [?|?].
Qed.

Lemma set_prop_fresh k v ps : k ∉ ps.*1 → set_prop k v ps = ps ++ [(k, v)].
Proof.
  induction ps as [|[k0 v0] ps IH]; simpl; [done|].
  intros [Hk Hps]%not_elem_of_cons.
  destruct (String.eqb_spec k k0); [done|]. by rewrite IH.
Qed.

Lemma set_props_app ps es1 es2 :
  set_props ps (es1 ++ es2) = set_props (set_props ps es1) es2.
Proof. apply foldl_app. Qed.

Lemma set_props_keys k ps es :
  k ∈ (set_props ps es).*1 ↔ k ∈ ps.*1 ∨ k ∈ es.*1.
Proof.
  revert ps. induction es as [|[k0 v0] es IH]; intros ps; simpl.
  - rewrite elem_of_nil. tauto.
  - unfold set_props in *. simpl. rewrite IH, set_prop_keys, elem_of_cons. tauto.
Qed.

Lemma set_props_NoDup ps es : NoDup ps.*1 → NoDup (set_props ps es).*1.
Proof.
  revert ps. induction es as [|[k0 v0] es IH]; intros ps Hps; [done|].
  apply IH. by apply set_prop_NoDup.
Qed.

(** Keys that are not defined again keep their value. *)
Lemma set_props_other k ps es :
  k ∉ es.*1 → get_prop k (set_props ps es) = get_prop k ps.
Proof.
  revert ps. induction es as [|[k0 v0] es IH]; intros ps; [done|].
  intros [Hk Hes]%not_elem_of_cons. unfold set_props in *. simpl.
  rewrite IH, get_prop_set_prop by done. by destruct (String.eqb_spec k k0).
Qed.

(** Last write wins. *)
Lemma set_props_last k v ps pre post :
  k ∉ post.*1 →
  get_prop k (set_props ps (pre ++ (k, v) :: post)) = Some v.
Proof.
  intros Hk. rewrite set_props_app. change ((k, v) :: post) with ([(k, v)] ++ post).
  rewrite set_props_app, set_props_other by done.
  unfold set_props at 1. simpl. by rewrite get_prop_set_prop, String.eqb_refl.
Qed.

(** Copying properties that are all different copies them as they are. *)
Lemma set_props_copy ps es : NoDup (ps ++ es).*1 → set_props ps es = ps ++ es.
Proof.
  revert ps. induction es as [|[k0 v0] es IH]; intros ps Hnd.
  - by rewrite app_nil_r.
  - unfold set_props in *. simpl. rewrite set_prop_fresh.
    + rewrite IH; [by rewrite <-app_assoc|]. by rewrite <-app_assoc.
    + rewrite fmap_app in Hnd. apply NoDup_app in Hnd as (_ & Hdisj & _).
      intros Hin. apply (Hdisj k0 Hin). by left.
Qed.

(** *** Changes by the caller *)

Lemma perform_frozen h a l :
  l < length h → frozen (deref h l) = true →
  l < length (perform h a) ∧ deref (perform h a) l = deref h l.
Proof.
  intros Hl Hf. destruct a as [l' f|o]; simpl.
  - unfold mutate. simpl. destruct (frozen (deref h l')) eqn:Hf'; [done|].
    rewrite length_alter. split; [done|]. unfold deref.
    apply list_lookup_total_alter_ne. intros ->. unfold deref in *. congruence.
  - rewrite length_app. split; [lia|]. by apply deref_old.
Qed.

Lemma foldl_perform_frozen acts : ∀ h l,
  l < length h → frozen (deref h l) = true →
  deref (foldl perform h acts) l = deref h l.
Proof.
  induction acts as [|a acts IH]; intros h l Hl Hf; [done|]. simpl.
  destruct (perform_frozen h a l Hl Hf) as [Hl' Heq].
  rewrite IH by (done || by rewrite Heq). done.
Qed.

(** ** Examples *)

(** On cyclic values the source recurses without bound: no amount of fuel
    gives a result. *)
Example isEqual_cyclic fuel : Tuple_isEqual fuel two_cycles (VRef 3) (VRef 4) = None.
Proof.
  unfold Tuple_isEqual. induction fuel as [|n IH]; [done|].
  rewrite _isEqual_arrays by reflexivity.
  change (match _isEqual n two_cycles (VRef 3) (VRef 4) with
          | Some true => Some true
          | Some false => Some false
          | None => None
          end = None).
  by rewrite IH.
Qed.

(** ** The test suite *)

(** The assertions of the repository's tests hold in the model. *)
Example test_Tuple :
  (let '(t, h) := Tuple [number 4; number 5; number 6] realm in
   Tuple_isTuple h t = true) ∧
  (let '(a, h) := new_array [number 4; number 5; number 6] realm in
   Tuple_isTuple h a = false) ∧
  (let '(t, h) := Tuple_of [number 4; number 5; number 6] realm in
   Tuple_isTuple h t = true) ∧
  (let '(t, h) := (a ← new_array [number 4; number 5; number 6];
                   Tuple_from a) realm in
   Tuple_isTuple h t = true ∧ elems (to_object h t) = [number 4; number 5; number 6]) ∧
  (let '((t1, t2), h) := tuples_of_records in returns h t1 t2 true) ∧
  (let '(a, h) := (t ← Tuple [number 4; number 5; number 6];
                   Tuple_toArray t) realm in
   Array_isArray h a = true ∧ Object_isFrozen h a = false).
Proof.
  split_and!; run_heap; try reflexivity; try (split; reflexivity).
  by exists 3.
Qed.

Example test_Record :
  (let '(r, h) := Record_ (VRef 3) two_records in Record_isRecord h r = true) ∧
  Record_isRecord two_records (VRef 3) = false ∧
  (let '(r, h) := Record_fromEntries [("a", number 1); ("b", number 2)] realm in
   Record_isRecord h r = true) ∧
  (let '(r, h) := Record_fromObject (VRef 3) two_records in
   Record_isRecord h r = true) ∧
  (let '(o, h) := (r ← Record_ (VRef 3); Record_toObject r) two_records in
   _isObject o = true ∧ Object_isFrozen h o = false ∧
   Object_keys h o = ["a"; "b"]).
Proof. split_and!; run_heap; try reflexivity. by split_and!. Qed.

(** * The claims *)

(** ** Leaves *)

(** C3. [isEqual] uses SameValueZero at the leaves: when [x] and [y] are
    identical ([x === y]) or are both NaN, [isEqual(x, y)] returns true.
    Consequently [isEqual(Tuple.of(1, NaN), Tuple.of(1, NaN))] and
    [isEqual(Tuple.of(0), Tuple.of(-0))] are true. *)
Theorem isEqual_SameValueZero (h : heap) (x y : value) :
  strict_eq x y = true ∨ (Number_isNaN x = true ∧ Number_isNaN y = true) →
  (∀ fuel, Tuple_isEqual (S fuel) h x y = Some true) ∧
  (let '(t1, h1) := Tuple_of [number 1; NaN] realm in
   let '(t2, h2) := Tuple_of [number 1; NaN] h1 in
   returns h2 t1 t2 true) ∧
  (let '(t1, h1) := Tuple_of [number 0] realm in
   let '(t2, h2) := Tuple_of [negative_zero] h1 in
   returns h2 t1 t2 true).
Proof.
  intros Hxy. split_and!.
  - intros fuel. apply _isEqual_same. unfold same_value_zero.
    destruct Hxy as [->|[-> ->]]; [done|]. by rewrite orb_true_r.
  - by exists 2.
  - by exists 2.
Qed.

Lemma isEqual_SameValueZero_witness :
  Tuple_isEqual 1 realm NaN NaN = Some true.
Proof.
  apply (isEqual_SameValueZero realm NaN NaN). right. split; reflexivity.
Defined.

(** ** Arrays *)

(** C2. For two arrays that are not the same array: different lengths give
    false; two empty arrays give true; otherwise the answer is true exactly
    when the elements compare equal at every index, and false exactly when
    they do not at some index, all the indices before it comparing equal
    (the elements after the first mismatch are not looked at).  In particular
    [isEqual(Tuple.of(1,2), Tuple.of(1,2,3))] is false. *)
Theorem isEqual_arrays (h : heap) (x y : value) :
  Array_isArray h x = true → Array_isArray h y = true →
  strict_eq x y = false →
  (length_of h x ≠ length_of h y →
     ∀ fuel, Tuple_isEqual (S fuel) h x y = Some false) ∧
  (length_of h x = 0 → length_of h y = 0 →
     ∀ fuel, Tuple_isEqual (S fuel) h x y = Some true) ∧
  (∀ fuel,
     Tuple_isEqual (S fuel) h x y = Some true ↔
     length_of h x = length_of h y ∧
     ∀ i, i < length_of h x →
          Tuple_isEqual fuel h (at_index h x i) (at_index h y i) = Some true) ∧
  (∀ fuel,
     Tuple_isEqual (S fuel) h x y = Some false ↔
     length_of h x ≠ length_of h y ∨
     ∃ i, i < length_of h x ∧
          Tuple_isEqual fuel h (at_index h x i) (at_index h y i) = Some false ∧
          ∀ j, j < i →
               Tuple_isEqual fuel h (at_index h x j) (at_index h y j) = Some true) ∧
  (let '(t1, h1) := Tuple_of [number 1; number 2] realm in
   let '(t2, h2) := Tuple_of [number 1; number 2; number 3] h1 in
   returns h2 t1 t2 false).
Proof.
  intros Hx Hy Hne.
  assert (same_value_zero x y = false) as Hs.
  { unfold same_value_zero. rewrite Hne. by destruct x. }
  unfold Tuple_isEqual. split_and!.
  - intros Hlen fuel. rewrite _isEqual_arrays by done.
    by destruct (Nat.eqb_spec (length_of h x) (length_of h y)).
  - intros Hx0 Hy0 fuel. rewrite _isEqual_arrays by done.
    by rewrite Hx0, Hy0.
  - intros fuel. rewrite _isEqual_arrays by done.
    destruct (Nat.eqb_spec (length_of h x) (length_of h y)) as [Hlen|Hlen]; simpl.
    + rewrite every_true. split.
      * intros Hall. split; [done|]. intros i Hi. apply Hall, elem_of_seq. lia.
      * intros [_ Hall] i [_ Hi]%elem_of_seq. apply Hall. lia.
    + split; [done|]. by intros [? _].
  - intros fuel. rewrite _isEqual_arrays by done.
    destruct (Nat.eqb_spec (length_of h x) (length_of h y)) as [Hlen|Hlen]; simpl.
    + rewrite every_false. split.
      * intros (l1 & i & l2 & Hseq & Hf & Ht). right.
        assert (l1 = seq 0 i ∧ i < length_of h x) as [-> Hi].
        { assert (seq 0 (length_of h x) !! length l1 = Some i) as Hl.
          { rewrite Hseq. by apply list_lookup_middle. }
          apply lookup_seq in Hl as [Hi ?]. simpl in Hi. subst i. split; [|done].
          apply (f_equal (take (length l1))) in Hseq.
          rewrite take_app_length, take_seq in Hseq.
          by rewrite Nat.min_l in Hseq by lia. }
        exists i. split_and!; [done..|]. intros j Hj. apply Ht, elem_of_seq. lia.
      * intros [?|(i & Hi & Hf & Ht)]; [done|].
        exists (seq 0 i), i, (seq (S i) (length_of h x - S i)). split_and!; [|done|].
        -- transitivity (seq 0 (i + S (length_of h x - S i))); [f_equal; lia|].
           by rewrite seq_app.
        -- intros j [_ Hj]%elem_of_seq. apply Ht. lia.
    + split; [by left|done].
  - by exists 1.
Qed.

Lemma isEqual_arrays_witness :
  let '(t1, h1) := Tuple_of [number 1; number 2; number 3] realm in
  let '(t2, h2) := Tuple_of [number 1; number 2; number 4] h1 in
  ∃ i, i < 3 ∧ Tuple_isEqual 1 h2 (at_index h2 t1 i) (at_index h2 t2 i) = Some false.
Proof.
  set (h2 := (Tuple_of [number 1; number 2; number 4]
                (Tuple_of [number 1; number 2; number 3] realm).2).2).
  change (∃ i, i < 3 ∧
    Tuple_isEqual 1 h2 (at_index h2 (VRef 3) i) (at_index h2 (VRef 4) i) = Some false).
  destruct (isEqual_arrays h2 (VRef 3) (VRef 4)) as (_ & _ & _ & Hf & _);
    [reflexivity..|].
  destruct (proj1 (Hf 1)) as [Hlen|(i & Hi & Hfi & _)]; [reflexivity|..].
  - exfalso. apply Hlen. reflexivity.
  - exists i. split; [exact Hi|exact Hfi].
Defined.

(** ** Objects *)



(** ** Values of different kinds *)

(** C4, as stated, fails: an array and a non-array object that share their
    prototype are compared key by key, and can be equal. *)
Lemma mismatched_kinds_counterexample :
  mismatched_kinds array_and_lookalike (VRef 3) (VRef 4) ∧
  Tuple_isEqual 2 array_and_lookalike (VRef 3) (VRef 4) = Some true ∧
  ¬ returns array_and_lookalike (VRef 3) (VRef 4) false.
Proof.
  split_and!.
  - left. by repeat split.
  - reflexivity.
  - intros Hf. assert (false = true); [|done].
    eapply (returns_det array_and_lookalike (VRef 3) (VRef 4)); [done|by exists 2].
Qed.

(** The object branch of [_isEqual], for any two distinct objects that are
    not both arrays. *)
Lemma object_branch_true h x y :
  same_value_zero x y = false →
  Array_isArray h x && Array_isArray h y = false →
  _isObject x = true → _isObject y = true →
  returns h x y true ↔
    Object_getPrototypeOf h x = Object_getPrototypeOf h y ∧
    length (Object_keys h x) = length (Object_keys h y) ∧
    ∀ k, k ∈ Object_keys h x →
         k ∈ Object_keys h y ∧ returns h (at_key h x k) (at_key h y k) true.
Proof.
  intros Hs Ha Hx Hy. split.
  - intros [[|n] Hn]; [done|]. unfold Tuple_isEqual in Hn.
    rewrite _isEqual_objects in Hn by done.
    destruct (decide (Object_getPrototypeOf h x = Object_getPrototypeOf h y))
      as [Hp|Hp]; [|by rewrite bool_decide_eq_false_2 in Hn].
    rewrite bool_decide_eq_true_2 in Hn by done. simpl in Hn.
    destruct (Nat.eqb_spec (length (Object_keys h x)) (length (Object_keys h y)))
      as [Hlen|]; [|done]. simpl in Hn.
    split_and!; [done..|]. intros k Hk.
    rewrite every_true in Hn. specialize (Hn k Hk).
    destruct (includes (Object_keys h y) k) eqn:Hin; [|done].
    split; [by apply includes_elem_of|by exists n].
  - intros (Hp & Hlen & Hall).
    destruct (common_fuel
      (λ m k, _isEqual m h (at_key h x k) (at_key h y k) = Some true)
      (Object_keys h x)) as [n Hn].
    { intros k Hk. destruct (Hall k Hk) as [_ [n Hn]]. exists n.
      intros m ?. by eapply _isEqual_mono. }
    exists (S n). unfold Tuple_isEqual. rewrite _isEqual_objects by done.
    rewrite bool_decide_eq_true_2 by done. simpl.
    rewrite Hlen, Nat.eqb_refl. simpl. apply every_true. intros k Hk.
    destruct (Hall k Hk) as [Hin _].
    rewrite (proj2 (includes_elem_of _ _) Hin). simpl. by apply Hn.
Qed.

(** An array and an object that is not one are two distinct objects. *)
Lemma array_and_object_branch h x y :
  array_and_object h x y ∨ array_and_object h y x →
  same_value_zero x y = false ∧
  Array_isArray h x && Array_isArray h y = false ∧
  _isObject x = true ∧ _isObject y = true.
Proof.
  intros Hk.
  assert (_isObject x = true ∧ _isObject y = true ∧
          Array_isArray h x ≠ Array_isArray h y) as (Hx & Hy & Hne).
  { destruct Hk as [(Hax & Ho & Hay)|(Hay & Ho & Hax)].
    - split_and!; [by destruct x|done|by rewrite Hax, Hay].
    - split_and!; [done|by destruct y|by rewrite Hax, Hay]. }
  split_and!; [|by destruct (Array_isArray h x), (Array_isArray h y)|done..].
  apply _isObject_ref in Hx as [a ->]. apply _isObject_ref in Hy as [b ->].
  unfold same_value_zero. rewrite strict_eq_ref, andb_false_r, orb_false_r.
  apply bool_decide_eq_false_2. by intros ->.
Qed.

(** C4, amended. Primitives that are neither identical nor both NaN compare
    unequal.  When exactly one of [x] and [y] is an array and the other is an
    object that is not, the two are compared as objects: [isEqual(x, y)]
    returns true if and only if they have the same prototype, the same number
    of own enumerable keys (the indices of an array are among its keys), and
    every key of [x] is a key of [y] under which the two values are
    recursively equal; on a finite [x] it returns false in every other case,
    and it returns false at once when the prototypes or the numbers of keys
    differ. *)
Theorem isEqual_mismatched_kinds (h : heap) (x y : value) :
  mismatched_kinds h x y →
  (returns h x y true ↔
     (array_and_object h x y ∨ array_and_object h y x) ∧
     Object_getPrototypeOf h x = Object_getPrototypeOf h y ∧
     length (Object_keys h x) = length (Object_keys h y) ∧
     ∀ k, k ∈ Object_keys h x →
          k ∈ Object_keys h y ∧ returns h (at_key h x k) (at_key h y k) true) ∧
  (finite_value h x →
   (returns h x y false ↔
    ¬ ((array_and_object h x y ∨ array_and_object h y x) ∧
       Object_getPrototypeOf h x = Object_getPrototypeOf h y ∧
       length (Object_keys h x) = length (Object_keys h y) ∧
       ∀ k, k ∈ Object_keys h x →
            k ∈ Object_keys h y ∧ returns h (at_key h x k) (at_key h y k) true))) ∧
  (distinct_primitives x y ∨
   Object_getPrototypeOf h x ≠ Object_getPrototypeOf h y ∨
   length (Object_keys h x) ≠ length (Object_keys h y) →
   ∀ fuel, Tuple_isEqual (S fuel) h x y = Some false).
Proof.
  intros Hkinds.
  assert (distinct_primitives x y →
          ∀ fuel, Tuple_isEqual (S fuel) h x y = Some false) as Hprim.
  { intros (Hx & Hy & Hs) fuel. unfold Tuple_isEqual.
    rewrite _isEqual_other; [done..|by destruct x|by destruct x]. }
  assert (returns h x y true ↔
     (array_and_object h x y ∨ array_and_object h y x) ∧
     Object_getPrototypeOf h x = Object_getPrototypeOf h y ∧
     length (Object_keys h x) = length (Object_keys h y) ∧
     ∀ k, k ∈ Object_keys h x →
          k ∈ Object_keys h y ∧ returns h (at_key h x k) (at_key h y k) true)
    as Htrue.
  { split.
    - intros Ht.
      assert (array_and_object h x y ∨ array_and_object h y x) as Hk.
      { destruct Hkinds as [?|[?|Hp]]; [by left|by right|].
        assert (true = false); [|done].
        eapply (returns_det h x y); [done|]. exists 1. by apply Hprim. }
      split; [done|].
      destruct (array_and_object_branch h x y Hk) as (Hs & Ha & Hx & Hy).
      by apply object_branch_true.
    - intros (Hk & Hshape).
      destruct (array_and_object_branch h x y Hk) as (Hs & Ha & Hx & Hy).
      by apply object_branch_true. }
  split_and!.
  - exact Htrue.
  - intros Hfin. split.
    + intros Hf Hshape. apply Htrue in Hshape.
      by pose proof (returns_det _ _ _ _ _ Hf Hshape).
    + intros Hshape. destruct (returns_total h x y Hfin) as [[] Hb]; [|done].
      destruct Hshape. by apply Htrue.
  - intros Hdiff fuel.
    destruct Hkinds as [Hk|[Hk|Hp]]; [| |by apply Hprim].
    + destruct (array_and_object_branch h x y (or_introl Hk)) as (Hs & Ha & Hx & Hy).
      unfold Tuple_isEqual. rewrite _isEqual_objects by done.
      destruct Hdiff as [(Hpx & _)|[Hp|Hlen]].
      * destruct Hk as (Hax & _). by destruct x.
      * by rewrite bool_decide_eq_false_2.
      * destruct (bool_decide _); simpl; [|done].
        by destruct (Nat.eqb_spec (length (Object_keys h x))
                                  (length (Object_keys h y))).
    + destruct (array_and_object_branch h x y (or_intror Hk)) as (Hs & Ha & Hx & Hy).
      unfold Tuple_isEqual. rewrite _isEqual_objects by done.
      destruct Hdiff as [(_ & Hpy & _)|[Hp|Hlen]].
      * destruct Hk as (Hay & _). by destruct y.
      * by rewrite bool_decide_eq_false_2.
      * destruct (bool_decide _); simpl; [|done].
        by destruct (Nat.eqb_spec (length (Object_keys h x))
                                  (length (Object_keys h y))).
Qed.

Lemma isEqual_mismatched_kinds_witness :
  (let '(t, h1) := Tuple_of [number 7] realm in
   let '(o, h2) := Record_ t h1 in
   Tuple_isEqual 1 h2 t o = Some false) ∧
  returns array_and_lookalike (VRef 3) (VRef 4) true.
Proof.
  split.
  - run_heap.
    apply (λ Hkinds Hdiff,
             proj2 (proj2 (isEqual_mismatched_kinds _ (VRef 3) (VRef 4) Hkinds))
                   Hdiff 0).
    + left. by repeat split.
    + right. left. by intros [=].
  - destruct (isEqual_mismatched_kinds array_and_lookalike (VRef 3) (VRef 4))
      as (Htrue & _).
    + left. by repeat split.
    + apply Htrue. split; [left; by repeat split|].
      split; [reflexivity|]. split; [reflexivity|].
      intros k Hk. change (k ∈ ["0"]) in Hk.
      apply elem_of_cons in Hk as [->|Hk]; [|by apply elem_of_nil in Hk].
      split; [left|by exists 1].
Defined.

(** ** Termination *)

(** C5. [isEqual] is total on finite values: the call returns a boolean, the
    same one for any sufficient depth of recursion.  The recursion follows the
    structure of the first argument, so its finiteness is all that is needed;
    no step of the comparison can fail. *)
Theorem isEqual_total (h : heap) (x y : value) :
  finite_value h x → finite_value h y →
  ∃ b fuel, ∀ fuel', fuel ≤ fuel' → Tuple_isEqual fuel' h x y = Some b.
Proof. intros Hx _. by apply returns_stable. Qed.

Lemma isEqual_total_witness :
  let '((t1, t2), h) := tuples_of_records in
  ∃ b fuel, ∀ fuel', fuel ≤ fuel' → Tuple_isEqual fuel' h t1 t2 = Some b.
Proof.
  run_heap. apply (isEqual_total _ (VRef 6) (VRef 7));
    by apply (finite_upto_sound 2).
Defined.

(** ** Symmetry *)

(** C10. [isEqual] is symmetric on finite values: [isEqual(x, y)] and
    [isEqual(y, x)] return the same boolean.  ([wf_heap] is the invariant that
    no object lists a key twice.) *)
Theorem isEqual_symmetric (h : heap) (x y : value) :
  wf_heap h → finite_value h x → finite_value h y →
  ∃ b fuel, ∀ fuel', fuel ≤ fuel' →
    Tuple_isEqual fuel' h x y = Some b ∧ Tuple_isEqual fuel' h y x = Some b.
Proof.
  intros Hwf Hx Hy.
  destruct (returns_stable h x y Hx) as (b & n & Hn).
  assert (returns h y x b) as [m Hm].
  { apply returns_swapped; [done..|]. exists n. by apply Hn. }
  exists b, (n `max` m). intros k Hk. split.
  - apply Hn. lia.
  - eapply returns_fuel; [done|lia].
Qed.

Lemma isEqual_symmetric_witness :
  ∃ b fuel, ∀ fuel', fuel ≤ fuel' →
    Tuple_isEqual fuel' two_records (VRef 3) (VRef 4) = Some b ∧
    Tuple_isEqual fuel' two_records (VRef 4) (VRef 3) = Some b.
Proof.
  apply (isEqual_symmetric two_records (VRef 3) (VRef 4)).
  - apply (bool_decide_unpack _). vm_compute. exact I.
  - by apply (finite_upto_sound 1).
  - by apply (finite_upto_sound 1).
Defined.

(** ** Record.isRecord *)

(** C6, as stated, fails on a frozen function: it is not null, not a
    primitive, and frozen, and [isRecord] answers false. *)
Lemma isRecord_counterexample :
  loose_ne_null (VFunction 3) = true ∧
  is_primitive (VFunction 3) = false ∧
  Object_isFrozen frozen_function (VFunction 3) = true ∧
  Record_isRecord frozen_function (VFunction 3) = false.
Proof. by repeat split. Qed.

(** C6, amended. [isRecord(v)] is true if and only if [v] is not null, its
    type is "object" (so it is neither a primitive nor a function), and it is
    frozen.  Nothing else is looked at: every frozen object passes, a tuple
    and a record built by this module among them, and an object that is not
    frozen does not. *)
Theorem isRecord_iff (h : heap) (v : value) :
  (Record_isRecord h v = true ↔
     loose_ne_null v = true ∧ is_primitive v = false ∧
     typeof v ≠ "function" ∧ Object_isFrozen h v = true) ∧
  (∀ l, Record_isRecord h (VRef l) = frozen (deref h l)) ∧
  (∀ vs, let '(t, h1) := Tuple vs h in Record_isRecord h1 t = true) ∧
  (∀ O, let '(m, h1) := Record_ O h in Record_isRecord h1 m = true) ∧
  (∀ ps, let '(l, h1) := alloc (Obj (Some ObjectPrototype) false [] ps false) h in
         Record_isRecord h1 (VRef l) = false).
Proof.
  split_and!.
  - unfold Record_isRecord. destruct v; simpl; by intuition discriminate.
  - done.
  - intros vs. rewrite Tuple_run. unfold Record_isRecord. simpl.
    by rewrite deref_new.
  - intros O. rewrite Record_run. unfold Record_isRecord. simpl.
    by rewrite deref_new.
  - intros ps. unfold alloc, Record_isRecord. simpl. by rewrite deref_new.
Qed.

(** ** Record.fromEntries *)

(** C7. [Record.fromEntries] builds a frozen object whose keys are exactly
    the keys that occur in the pairs, each listed once, and under each key
    the value of the last pair with that key. *)
Theorem fromEntries_last_write_wins (entries : list (string * value)) (h : heap) :
  let '(m, h1) := Record_fromEntries entries h in
  Record_isRecord h1 m = true ∧
  Array_isArray h1 m = false ∧
  (∀ k, k ∈ Object_keys h1 m ↔ k ∈ entries.*1) ∧
  NoDup (Object_keys h1 m) ∧
  (∀ k v before after,
     entries = before ++ (k, v) :: after → k ∉ after.*1 →
     at_key h1 m k = v) ∧
  (∀ l, l < length h → deref h1 l = deref h l).
Proof.
  rewrite Record_fromEntries_run.
  unfold Record_isRecord, Object_keys, at_key, get, own_props. simpl.
  rewrite deref_new. simpl. split_and!; [done..| | | |].
  - intros k. rewrite set_props_keys. simpl. rewrite elem_of_nil. tauto.
  - apply set_props_NoDup. apply NoDup_nil_2.
  - intros k v before after -> Hk. by rewrite set_props_last.
  - intros l Hl. by apply deref_old.
Qed.

Lemma fromEntries_last_write_wins_witness :
  let '(m, h1) :=
    Record_fromEntries [("a", number 1); ("b", number 2); ("a", number 3)] realm in
  at_key h1 m "a" = number 3.
Proof.
  pose proof (fromEntries_last_write_wins
    [("a", number 1); ("b", number 2); ("a", number 3)] realm) as Hlast.
  destruct (Record_fromEntries _ _) as [m h1].
  destruct Hlast as (_ & _ & _ & _ & Hlast & _).
  apply (Hlast "a" (number 3) [("a", number 1); ("b", number 2)] []).
  - reflexivity.
  - apply not_elem_of_nil.
Defined.

(** ** Record: copy on create *)

(** C8. [Record(O)] copies on create: the record is a new frozen object
    holding the keys and values [O] has at that moment, and whatever is done
    afterwards to [O] or to any other object (properties added, removed or
    reassigned, objects allocated) leaves the keys and values of the record
    as they were. *)
Theorem Record_copy_on_create (h : heap) (O : value) (acts : list action) :
  let '(m, h1) := Record_ O h in
  let h2 := foldl perform h1 acts in
  m = VRef (length h) ∧
  Object_isFrozen h1 m = true ∧
  (wf_object (to_object h O) → "__proto__" ∉ Object_keys h O →
   own_props (to_object h1 m) = own_props (to_object h O)) ∧
  to_object h2 m = to_object h1 m ∧
  Object_keys h2 m = Object_keys h1 m ∧
  (∀ k, at_key h2 m k = at_key h1 m k) ∧
  Object_isFrozen h2 m = true.
Proof.
  rewrite Record_run. cbv zeta.
  set (o := Obj _ _ _ _ _). set (h1 := h ++ [o]).
  assert (deref h1 (length h) = o) as Ho by apply deref_new.
  assert (deref (foldl perform h1 acts) (length h) = deref h1 (length h)) as Heq.
  { apply foldl_perform_frozen; [|by rewrite Ho].
    unfold h1. rewrite length_app. simpl. lia. }
  unfold Object_keys, at_key, Object_isFrozen. simpl. rewrite Heq, Ho.
  split_and!; try done.
  intros Hwf _. unfold own_props at 1. simpl. apply set_props_copy. by simpl.
Qed.

Lemma Record_copy_on_create_witness :
  let '(m, h1) := Record_ (VRef 3) one_record in
  let h2 := foldl perform h1 changes_to_one_record in
  at_key h2 (VRef 3) "a" = VUndefined ∧ at_key h2 (VRef 3) "b" = NaN ∧
  Object_keys h2 m = ["a"] ∧ at_key h2 m "a" = number 1.
Proof.
  pose proof (Record_copy_on_create one_record (VRef 3) changes_to_one_record)
    as Hcopy.
  destruct (Record_ _ _) as [m h1] eqn:Hrun. cbv zeta in Hcopy |- *.
  destruct Hcopy as (-> & _ & Hprops & _ & Hkeys & Hvals & _).
  rewrite Hkeys, Hvals. unfold Object_keys, at_key, get.
  rewrite Hprops; [|apply (bool_decide_unpack _); vm_compute; exact I
                   |apply (bool_decide_unpack _); vm_compute; exact I].
  injection Hrun as <-.
  split; [reflexivity|]. split; [reflexivity|]. split; reflexivity.
Defined.

(** ** Tuple.toArray *)

(** C9. [Tuple.toArray(Tuple(...V))] is a new array, not frozen, holding the
    values [V] themselves in the same order.  The copy is shallow: the heap
    is only extended by the two arrays, so an object referenced from [V] is
    the same object, in the same state, for the list [V], for the tuple and
    for the copy. *)
Theorem toArray_Tuple (V : list value) (h : heap) :
  let '(t, h1) := Tuple V h in
  let '(a, h2) := Tuple_toArray t h1 in
  strict_eq a t = false ∧
  Array_isArray h2 a = true ∧
  Object_isFrozen h2 a = false ∧
  elems (to_object h2 a) = V ∧
  elems (to_object h2 t) = V ∧
  Tuple_isTuple h2 t = true ∧
  h2 = h ++ [to_object h2 t; to_object h2 a].
Proof.
  rewrite Tuple_run. unfold Tuple_toArray. rewrite Array_from_run.
  set (ot := Obj (Some ArrayPrototype) true V [] true).
  assert (to_object (h ++ [ot]) (VRef (length h)) = ot) as Ht by apply deref_new.
  assert (Array_isArray (h ++ [ot]) (VRef (length h)) = true) as ->.
  { unfold Array_isArray. by rewrite deref_new. }
  rewrite Ht. simpl elems.
  set (oa := Obj (Some ArrayPrototype) true V [] false).
  assert (deref ((h ++ [ot]) ++ [oa]) (length (h ++ [ot])) = oa) as Ha
    by apply deref_new.
  assert (deref ((h ++ [ot]) ++ [oa]) (length h) = ot) as Ht'.
  { rewrite deref_old; [apply deref_new|]. rewrite length_app. simpl. lia. }
  unfold Tuple_isTuple, Array_isArray, Object_isFrozen, to_object.
  rewrite Ha, Ht'. split_and!; try done.
  - rewrite length_app. simpl. apply Nat.eqb_neq. lia.
  - by rewrite <-app_assoc.
Qed.

(** * Further properties of the module *)

(** ** Helper facts *)

Lemma SFeqb_refl a : a ≠ S754_nan → SFeqb a a = true.
Proof.
  unfold SFeqb, SFcompare. destruct a as [s|s| |s m e]; try done.
  - by destruct s.
  - intros _. rewrite Z.compare_refl.
    change (Pos.compare_cont Eq m m) with (m ?= m)%positive.
    rewrite Pos.compare_refl. by destruct s.
Qed.

Lemma same_value_zero_refl x : same_value_zero x x = true.
Proof.
  unfold same_value_zero. destruct x; simpl; try done.
  - by destruct b.
  - destruct n as [s|s| |s m e]; try done; rewrite SFeqb_refl; done.
  - by rewrite Z.eqb_refl.
  - by rewrite String.eqb_refl.
  - by rewrite Nat.eqb_refl.
  - by rewrite Nat.eqb_refl.
  - by rewrite Nat.eqb_refl.
Qed.

Lemma every_ext {A} (body body' : A → option bool) l :
  (∀ a, a ∈ l → body a = body' a) → every body l = every body' l.
Proof.
  induction l as [|a l IH]; intros Hb; simpl; [done|].
  rewrite <-(Hb a) by by left. rewrite IH; [done|].
  intros a' ?. apply Hb. by right.
Qed.

(** Only allocated locations hold arrays. *)
Lemma isArray_allocated h l : Array_isArray h (VRef l) = true → l < length h.
Proof.
  unfold Array_isArray, deref. intros Ha.
  destruct (decide (l < length h)) as [|Hge]; [done|].
  rewrite list_lookup_total_alt, (lookup_ge_None_2 h l) in Ha by lia. done.
Qed.

(** Two arrays holding the same list of values compare equal, whatever their
    prototypes, other properties and frozen markers are. *)
Lemma arrays_same_elems h x y fuel :
  Array_isArray h x = true → Array_isArray h y = true →
  elems (to_object h x) = elems (to_object h y) →
  _isEqual (S (S fuel)) h x y = Some true.
Proof.
  intros Hx Hy He. destruct (same_value_zero x y) eqn:Hs.
  { by apply _isEqual_same. }
  rewrite _isEqual_arrays by done. unfold length_of, at_index. rewrite He.
  rewrite Nat.eqb_refl. simpl negb. cbv iota. apply every_true.
  intros i _. apply _isEqual_same, same_value_zero_refl.
Qed.

(** Two objects, not both arrays, with the same prototype and the same list
    of own properties compare equal. *)
Lemma objects_same_props h x y fuel :
  _isObject x = true → _isObject y = true →
  Array_isArray h x && Array_isArray h y = false →
  Object_getPrototypeOf h x = Object_getPrototypeOf h y →
  own_props (to_object h x) = own_props (to_object h y) →
  _isEqual (S (S fuel)) h x y = Some true.
Proof.
  intros Hx Hy Ha Hp He. destruct (same_value_zero x y) eqn:Hs.
  { by apply _isEqual_same. }
  rewrite _isEqual_objects by done. rewrite bool_decide_eq_true_2 by done.
  unfold Object_keys, at_key, get. rewrite He, Nat.eqb_refl. simpl negb. cbv iota.
  apply every_true. intros k Hk.
  rewrite (proj2 (includes_elem_of _ _) Hk). simpl negb. cbv iota.
  apply _isEqual_same, same_value_zero_refl.
Qed.

(** ** Reflexivity and leaves *)

(** X1. [isEqual(x, x)] is true for every value [x]: NaN, an object, and
    also a cyclic object, on which no recursion takes place. *)
Theorem isEqual_reflexive (h : heap) (x : value) (fuel : nat) :
  Tuple_isEqual (S fuel) h x x = Some true.
Proof. apply _isEqual_same, same_value_zero_refl. Qed.

(** X2. When one of the two arguments is not an object (it is a primitive,
    null, undefined or a function), [isEqual] is the SameValueZero test and
    nothing else: null and undefined equal no object, and a function equals
    only itself. *)
Theorem isEqual_non_object (h : heap) (x y : value) (fuel : nat) :
  _isObject x = false ∨ _isObject y = false →
  Tuple_isEqual (S fuel) h x y = Some (same_value_zero x y).
Proof.
  intros Hxy. unfold Tuple_isEqual. destruct (same_value_zero x y) eqn:Hs.
  { by apply _isEqual_same. }
  apply _isEqual_other; [done|..].
  - destruct Hxy as [Hx|Hy]; [by destruct x|].
    destruct y; try done; by rewrite andb_false_r.
  - destruct Hxy as [-> | ->]; [done|by rewrite andb_false_r].
Qed.

Lemma isEqual_non_object_witness :
  Tuple_isEqual 1 two_records VNull (VRef 3) = Some false ∧
  Tuple_isEqual 1 frozen_function (VFunction 3) (VFunction 2) = Some false.
Proof.
  split.
  - apply (isEqual_non_object two_records VNull (VRef 3) 0). left. reflexivity.
  - apply (isEqual_non_object frozen_function (VFunction 3) (VFunction 2) 0).
    left. reflexivity.
Defined.

(** ** Depth of recursion *)

(** X13. The recursion of [isEqual] goes at most one level deeper than the
    first argument is nested, whatever the second argument is. *)
Theorem isEqual_depth (h : heap) (x y : value) (depth fuel : nat) :
  finite_upto depth h x = true → depth < fuel →
  ∃ b, Tuple_isEqual fuel h x y = Some b.
Proof. intros Hx Hlt. by apply (_isEqual_depth h depth). Qed.

Lemma isEqual_depth_witness :
  ∃ b, Tuple_isEqual 3 tuples_of_records.2 (VRef 6) (VRef 7) = Some b.
Proof.
  apply (isEqual_depth tuples_of_records.2 (VRef 6) (VRef 7) 2 3);
    [reflexivity|lia].
Defined.

(** ** The frozen marker *)

Lemma freeze_object_fields o o' :
  freeze_object o' = freeze_object o →
  proto o' = proto o ∧ is_array o' = is_array o ∧ elems o' = elems o ∧
  props o' = props o.
Proof. unfold freeze_object. by intros [= -> -> -> ->]. Qed.

Section same_contents.
Context (h h' : heap).
Context (Hsame : ∀ l, freeze_object (deref h' l) = freeze_object (deref h l)).

Lemma same_contents_to_object x :
  freeze_object (to_object h' x) = freeze_object (to_object h x).
Proof. destruct x; simpl; auto. Qed.

Lemma same_contents_isArray x : Array_isArray h' x = Array_isArray h x.
Proof.
  destruct x; try done. simpl.
  by destruct (freeze_object_fields _ _ (Hsame l)) as (_ & -> & _).
Qed.

Lemma same_contents_elems x : elems (to_object h' x) = elems (to_object h x).
Proof.
  by destruct (freeze_object_fields _ _ (same_contents_to_object x))
    as (_ & _ & -> & _).
Qed.

Lemma same_contents_proto x :
  Object_getPrototypeOf h' x = Object_getPrototypeOf h x.
Proof.
  unfold Object_getPrototypeOf.
  by destruct (freeze_object_fields _ _ (same_contents_to_object x)) as (-> & _).
Qed.

Lemma same_contents_own_props x :
  own_props (to_object h' x) = own_props (to_object h x).
Proof.
  unfold own_props.
  by destruct (freeze_object_fields _ _ (same_contents_to_object x))
    as (_ & -> & -> & ->).
Qed.

(** [_isEqual] reads the prototype, the array flag, the elements and the
    properties of objects, and nothing else. *)
Lemma same_contents_isEqual fuel : ∀ x y,
  _isEqual fuel h' x y = _isEqual fuel h x y.
Proof.
  induction fuel as [|n IH]; intros x y; [done|].
  destruct (same_value_zero x y) eqn:Hs.
  { by rewrite !_isEqual_same. }
  destruct (Array_isArray h x && Array_isArray h y) eqn:Ha.
  { apply andb_prop in Ha as [Hx Hy].
    rewrite !_isEqual_arrays by (done || by rewrite same_contents_isArray).
    unfold length_of, at_index. rewrite !same_contents_elems.
    destruct (negb _); [done|]. by apply every_ext. }
  destruct (_isObject x && _isObject y) eqn:Ho.
  { apply andb_prop in Ho as [Hx Hy].
    rewrite !_isEqual_objects by (done || by rewrite !same_contents_isArray).
    unfold Object_keys, at_key, get.
    rewrite !same_contents_proto, !same_contents_own_props.
    destruct (negb _); [done|]. destruct (negb _); [done|].
    apply every_ext. intros k _. by destruct (negb _). }
  by rewrite !_isEqual_other by (done || by rewrite !same_contents_isArray).
Qed.
End same_contents.

Lemma freeze_object_idemp o : freeze_object (freeze_object o) = freeze_object o.
Proof. done. Qed.

Lemma deref_freeze h l l' :
  freeze_object (deref (alter freeze_object l h) l') = freeze_object (deref h l').
Proof.
  unfold deref. rewrite list_lookup_total_alter.
  destruct (decide _) as [[-> _]|]; [apply freeze_object_idemp|done].
Qed.

(** X3. [isEqual] never looks at the frozen marker: freezing a value changes
    the result of no comparison, so a tuple or a record compares like the
    array or the object it was made of. *)
Theorem isEqual_ignores_frozen (h : heap) (v x y : value) (fuel : nat) :
  let '(_, h') := Object_freeze v h in
  Tuple_isEqual fuel h' x y = Tuple_isEqual fuel h x y.
Proof.
  unfold Tuple_isEqual.
  destruct v; simpl; try done; apply same_contents_isEqual;
    intros l'; apply deref_freeze.
Qed.

(** ** The constructors and the converters *)

Lemma Object_assign_new_run x h :
  Object_assign_new x h =
    (VRef (length h),
     h ++ [Obj (Some ObjectPrototype) false []
               (set_props [] (own_props (to_object h x))) false]).
Proof.
  unfold Object_assign_new, alloc, mbind, M_bind, mret, M_ret. simpl.
  by rewrite props_foldl_put.
Qed.

Lemma Tuple_from_run x h :
  Tuple_from x h =
    let vs := if Array_isArray h x then elems (to_object h x) else [] in
    (VRef (S (length h)),
     h ++ [Obj (Some ArrayPrototype) true vs [] false;
           Obj (Some ArrayPrototype) true vs [] true]).
Proof.
  unfold Tuple_from, mbind, M_bind. rewrite Array_from_run.
  unfold spread. simpl to_object. rewrite deref_new. simpl elems.
  rewrite Tuple_run, length_app. simpl length. rewrite Nat.add_1_r.
  by rewrite <-app_assoc.
Qed.

Lemma deref_new2 (h : heap) o1 o2 : deref (h ++ [o1; o2]) (S (length h)) = o2.
Proof.
  change [o1; o2] with ([o1] ++ [o2]). rewrite app_assoc. unfold deref.
  apply list_lookup_total_middle. rewrite length_app. simpl. lia.
Qed.

(** A record's own properties are listed once each, so copying them keeps
    them as they are. *)
Lemma set_props_idemp es : set_props [] (set_props [] es) = set_props [] es.
Proof. apply (set_props_copy []). simpl. apply set_props_NoDup, NoDup_nil_2. Qed.

(** X4. [Tuple.from(x)], for an array [x], is a new tuple holding the
    elements of [x] in order; [x] itself is left as it was (it is not frozen
    by the call), and the tuple compares equal to it. *)
Theorem Tuple_from_array (h : heap) (x : value) (fuel : nat) :
  Array_isArray h x = true →
  let '(t, h1) := Tuple_from x h in
  Tuple_isTuple h1 t = true ∧
  elems (to_object h1 t) = elems (to_object h x) ∧
  strict_eq t x = false ∧
  to_object h1 x = to_object h x ∧
  Tuple_isEqual (S (S fuel)) h1 t x = Some true.
Proof.
  intros Hx. destruct x as [| | | | | | | |l]; try done.
  pose proof (isArray_allocated _ _ Hx) as Hl.
  rewrite Tuple_from_run, Hx. cbv zeta.
  set (vs := elems (to_object h (VRef l))).
  set (h1 := h ++ _).
  assert (deref h1 (S (length h)) = Obj (Some ArrayPrototype) true vs [] true)
    as Ht by apply deref_new2.
  assert (deref h1 l = deref h l) as Hold by by apply deref_old.
  unfold Tuple_isTuple, Array_isArray, Object_isFrozen, to_object.
  rewrite Ht, Hold. split_and!; try done.
  - apply Nat.eqb_neq. lia.
  - apply arrays_same_elems.
    + unfold Array_isArray. by rewrite Ht.
    + unfold Array_isArray. by rewrite Hold.
    + unfold to_object. by rewrite Ht, Hold.
Qed.

Lemma Tuple_from_array_witness :
  let '(t, h1) := Tuple_from (VRef 3) array_and_lookalike in
  Tuple_isTuple h1 t = true ∧ Tuple_isTuple h1 (VRef 3) = false ∧
  Tuple_isEqual 2 h1 t (VRef 3) = Some true.
Proof.
  pose proof (Tuple_from_array array_and_lookalike (VRef 3) 0) as Hfrom.
  destruct (Tuple_from _ _) as [t h1] eqn:Hrun.
  destruct Hfrom as (Ht & _ & _ & Hx & Heq); [reflexivity|].
  split; [exact Ht|]. split; [|exact Heq].
  unfold Tuple_isTuple, Array_isArray, Object_isFrozen.
  change (deref h1 3) with (to_object h1 (VRef 3)). rewrite Hx. reflexivity.
Defined.

(** X5. [Tuple.toArray(x)], for any array [x], frozen or not, is a new
    array that is not frozen, holds the elements of [x] in order, and
    compares equal to [x]; [x] is left as it was. *)
Theorem Tuple_toArray_array (h : heap) (x : value) (fuel : nat) :
  Array_isArray h x = true →
  let '(a, h1) := Tuple_toArray x h in
  Array_isArray h1 a = true ∧
  Tuple_isTuple h1 a = false ∧
  elems (to_object h1 a) = elems (to_object h x) ∧
  strict_eq a x = false ∧
  to_object h1 x = to_object h x ∧
  Tuple_isEqual (S (S fuel)) h1 a x = Some true.
Proof.
  intros Hx. destruct x as [| | | | | | | |l]; try done.
  pose proof (isArray_allocated _ _ Hx) as Hl.
  unfold Tuple_toArray. rewrite Array_from_run, Hx.
  set (vs := elems (to_object h (VRef l))).
  set (h1 := h ++ _).
  assert (deref h1 (length h) = Obj (Some ArrayPrototype) true vs [] false)
    as Ha by apply deref_new.
  assert (deref h1 l = deref h l) as Hold by by apply deref_old.
  unfold Tuple_isTuple, Array_isArray, Object_isFrozen, to_object.
  rewrite Ha, Hold. split_and!; try done.
  - apply Nat.eqb_neq. lia.
  - apply arrays_same_elems.
    + unfold Array_isArray. by rewrite Ha.
    + unfold Array_isArray. by rewrite Hold.
    + unfold to_object. by rewrite Ha, Hold.
Qed.

Lemma Tuple_toArray_array_witness :
  let '(a, h1) := Tuple_toArray (VRef 3) array_and_lookalike in
  Tuple_isEqual 2 h1 a (VRef 3) = Some true.
Proof.
  pose proof (Tuple_toArray_array array_and_lookalike (VRef 3) 0) as Hcopy.
  destruct (Tuple_toArray _ _) as [a h1].
  destruct Hcopy as (_ & _ & _ & _ & _ & Heq); [reflexivity|exact Heq].
Defined.

(** X6. Every tuple is a record: a value that passes [isTuple] passes
    [isRecord]. *)
Theorem isTuple_isRecord (h : heap) (v : value) :
  Tuple_isTuple h v = true → Record_isRecord h v = true.
Proof.
  unfold Tuple_isTuple, Record_isRecord.
  destruct v; simpl; try done. by intros [_ ->]%andb_prop.
Qed.

Lemma isTuple_isRecord_witness :
  let '(t, h) := Tuple [number 1] realm in Record_isRecord h t = true.
Proof.
  run_heap. apply isTuple_isRecord. reflexivity.
Defined.

(** X7. What the constructors build: [Tuple], [Tuple.of] and [Tuple.from]
    (of an array) return a tuple; [Record], [Record.fromObject] and
    [Record.fromEntries] return a record that is not a tuple, also when the
    source is an array; the converters [Tuple.toArray] (of an array) and
    [Record.toObject] return a value that is neither. *)
Theorem constructors_kinds (h : heap) (V : list value) (x O : value)
    (es : list (string * value)) :
  Array_isArray h x = true →
  (let '(t, h1) := Tuple V h in Tuple_isTuple h1 t = true) ∧
  (let '(t, h1) := Tuple_of V h in Tuple_isTuple h1 t = true) ∧
  (let '(t, h1) := Tuple_from x h in Tuple_isTuple h1 t = true) ∧
  (let '(r, h1) := Record_ O h in
   Record_isRecord h1 r = true ∧ Tuple_isTuple h1 r = false) ∧
  (let '(r, h1) := Record_fromObject O h in
   Record_isRecord h1 r = true ∧ Tuple_isTuple h1 r = false) ∧
  (let '(r, h1) := Record_fromEntries es h in
   Record_isRecord h1 r = true ∧ Tuple_isTuple h1 r = false) ∧
  (let '(a, h1) := Tuple_toArray x h in
   Array_isArray h1 a = true ∧
   Tuple_isTuple h1 a = false ∧ Record_isRecord h1 a = false) ∧
  (let '(o, h1) := Record_toObject O h in
   _isObject o = true ∧ Array_isArray h1 o = false ∧
   Tuple_isTuple h1 o = false ∧ Record_isRecord h1 o = false).
Proof.
  intros _. unfold Tuple_of, Record_fromObject, Tuple_toArray, Record_toObject.
  rewrite Tuple_run, Tuple_from_run, Record_run, Record_fromEntries_run,
    Array_from_run, Object_assign_new_run. cbv zeta.
  unfold Tuple_isTuple, Record_isRecord, Array_isArray, Object_isFrozen.
  simpl. rewrite !deref_new, deref_new2. by split_and!.
Qed.

Lemma constructors_kinds_witness :
  let '(r, h1) := Record_ (VRef 3) array_and_lookalike in
  Record_isRecord h1 r = true ∧ Tuple_isTuple h1 r = false.
Proof.
  pose proof (constructors_kinds array_and_lookalike [] (VRef 3) (VRef 3) [])
    as Hkinds.
  destruct (Record_ _ _) as [r h1].
  destruct Hkinds as (_ & _ & _ & Hrecord & _); [reflexivity|exact Hrecord].
Defined.

(** X8. Building a tuple twice from the same values gives two different
    objects that compare equal, whatever the values are. *)
Theorem Tuple_twice (h : heap) (V : list value) (fuel : nat) :
  let '(t1, h1) := Tuple V h in
  let '(t2, h2) := Tuple V h1 in
  strict_eq t1 t2 = false ∧
  Tuple_isEqual (S (S fuel)) h2 t1 t2 = Some true.
Proof.
  rewrite Tuple_run. cbv beta iota zeta. rewrite Tuple_run.
  set (o := Obj _ _ V _ _). set (h1 := h ++ [o]).
  assert (deref (h1 ++ [o]) (length h1) = o) as H2 by apply deref_new.
  assert (deref (h1 ++ [o]) (length h) = o) as H1.
  { rewrite deref_old; [apply deref_new|]. unfold h1. rewrite length_app. simpl. lia. }
  split.
  - unfold h1. rewrite length_app. simpl. apply Nat.eqb_neq. lia.
  - apply arrays_same_elems.
    + unfold Array_isArray. by rewrite H1.
    + unfold Array_isArray. by rewrite H2.
    + unfold to_object. by rewrite H1, H2.
Qed.

(** X9. Called on a list of values [V], an array [x], a source [O] and a
    list of key/value pairs [es], no constructor or converter touches an
    object that exists already: each one only adds objects to the heap and
    returns one of those, so every object that existed before the call, [x]
    and [O] and the objects held in [V] and [es] among them, is read and
    left as it was, frozen or not.  (Iterators and other iterables that are
    not arrays, which a call would consume, are outside this statement.) *)
Theorem constructors_extend_heap (h : heap) (V : list value) (x O : value)
    (es : list (string * value)) :
  Array_isArray h x = true →
  Forall (λ c : M value,
            ∃ l new, c h = (VRef l, h ++ new) ∧
                     length h ≤ l ∧ l < length (h ++ new) ∧
                     ∀ l', l' < length h → deref (h ++ new) l' = deref h l')
         [Tuple V; Tuple_of V; Tuple_from x; Tuple_toArray x;
          Record_ O; Record_fromObject O; Record_fromEntries es;
          Record_toObject O].
Proof.
  intros Hx. unfold Tuple_of, Record_fromObject, Tuple_toArray, Record_toObject.
  assert (∀ new : heap, length new ≠ 0 → ∀ l, length h ≤ l → l < length h + length new →
            length h ≤ l ∧ l < length (h ++ new) ∧
            ∀ l', l' < length h → deref (h ++ new) l' = deref h l') as Hnew.
  { intros new _ l ??. rewrite length_app. split_and!; [done..|].
    intros l' ?. by apply deref_old. }
  repeat apply Forall_cons_2; [..|apply Forall_nil_2].
  - rewrite Tuple_run. eexists _, _. split; [done|]. apply Hnew; simpl; lia.
  - rewrite Tuple_run. eexists _, _. split; [done|]. apply Hnew; simpl; lia.
  - rewrite Tuple_from_run, Hx. eexists _, _. split; [done|]. apply Hnew; simpl; lia.
  - rewrite Array_from_run, Hx. eexists _, _. split; [done|]. apply Hnew; simpl; lia.
  - rewrite Record_run. eexists _, _. split; [done|]. apply Hnew; simpl; lia.
  - rewrite Record_run. eexists _, _. split; [done|]. apply Hnew; simpl; lia.
  - rewrite Record_fromEntries_run. eexists _, _. split; [done|].
    apply Hnew; simpl; lia.
  - rewrite Object_assign_new_run. eexists _, _. split; [done|].
    apply Hnew; simpl; lia.
Qed.

Lemma constructors_extend_heap_witness :
  ∃ l new, Tuple_from (VRef 3) array_and_lookalike = (VRef l, array_and_lookalike ++ new).
Proof.
  pose proof (constructors_extend_heap array_and_lookalike [] (VRef 3) (VRef 4) [])
    as Hextend.
  apply Forall_cons_1 in Hextend as [_ Hextend]; [|reflexivity].
  apply Forall_cons_1 in Hextend as [_ Hextend].
  apply Forall_cons_1 in Hextend as [(l & new & Hrun & _) _].
  exists l, new. exact Hrun.
Defined.

(** X12. A tuple does not change: whatever is done afterwards to any object
    (elements written, properties added or removed, objects allocated), the
    tuple built by [Tuple(...V)] still holds [V] and still is a tuple. *)
Theorem Tuple_immutable (h : heap) (V : list value) (acts : list action) :
  let '(t, h1) := Tuple V h in
  let h2 := foldl perform h1 acts in
  to_object h2 t = to_object h1 t ∧
  elems (to_object h2 t) = V ∧
  Tuple_isTuple h2 t = true.
Proof.
  rewrite Tuple_run. cbv zeta.
  set (o := Obj _ _ _ _ _). set (h1 := h ++ [o]).
  assert (deref h1 (length h) = o) as Ho by apply deref_new.
  assert (deref (foldl perform h1 acts) (length h) = deref h1 (length h)) as Heq.
  { apply foldl_perform_frozen; [|by rewrite Ho].
    unfold h1. rewrite length_app. simpl. lia. }
  unfold Tuple_isTuple, Array_isArray, Object_isFrozen, to_object.
  by rewrite Heq, Ho.
Qed.

(** ** Records and their sources *)

(** X10. [Record.toObject(Record(O))] is a new object that is not frozen,
    holds the keys and values of the record, and compares equal to it; the
    record is left as it was.  ([O] has no own key ["__proto__"], which
    [Object.assign] would not copy as a property.) *)
Theorem toObject_Record (h : heap) (O : value) (fuel : nat) :
  "__proto__" ∉ Object_keys h O →
  let '(r, h1) := Record_ O h in
  let '(o, h2) := Record_toObject r h1 in
  strict_eq o r = false ∧
  Record_isRecord h2 o = false ∧
  own_props (to_object h2 o) = own_props (to_object h1 r) ∧
  to_object h2 r = to_object h1 r ∧
  Tuple_isEqual (S (S fuel)) h2 o r = Some true.
Proof.
  intros _. rewrite Record_run. unfold Record_toObject.
  rewrite Object_assign_new_run.
  set (es := own_props (to_object h O)).
  set (r := Obj (Some ObjectPrototype) false [] (set_props [] es) true).
  assert (to_object (h ++ [r]) (VRef (length h)) = r) as Hr by apply deref_new.
  rewrite Hr.
  assert (own_props r = set_props [] es) as Hpr by done.
  rewrite Hpr, set_props_idemp.
  set (o := Obj (Some ObjectPrototype) false [] (set_props [] es) false).
  assert (deref ((h ++ [r]) ++ [o]) (length (h ++ [r])) = o) as Ho
    by apply deref_new.
  assert (deref ((h ++ [r]) ++ [o]) (length h) = r) as Hr'.
  { rewrite deref_old; [apply deref_new|]. rewrite length_app. simpl. lia. }
  unfold Record_isRecord, Object_isFrozen, to_object. rewrite Ho, Hr'.
  split_and!; try done.
  - rewrite length_app. simpl. apply Nat.eqb_neq. lia.
  - apply objects_same_props; try done.
    + unfold Array_isArray. by rewrite Ho.
    + unfold Object_getPrototypeOf, to_object. by rewrite Ho, Hr'.
    + unfold to_object. by rewrite Ho, Hr'.
Qed.

Lemma toObject_Record_witness :
  let '(r, h1) := Record_ (VRef 3) two_records in
  let '(o, h2) := Record_toObject r h1 in
  Tuple_isEqual 2 h2 o r = Some true.
Proof.
  pose proof (toObject_Record two_records (VRef 3) 0) as Hround.
  destruct (Record_ _ _) as [r h1]. destruct (Record_toObject _ _) as [o h2].
  destruct Hround as (_ & _ & _ & _ & Heq); [|exact Heq].
  apply (bool_decide_unpack _). vm_compute. exact I.
Defined.

(** X11. [Record.fromEntries(Object.entries(O))] compares equal to
    [Record(O)], for every object [O] (without an own key ["__proto__"],
    which the first would define as a property and the second would not). *)
Theorem fromEntries_entries (h : heap) (l : loc) (fuel : nat) :
  l < length h → "__proto__" ∉ Object_keys h (VRef l) →
  let '(r1, h1) := Record_fromEntries (own_props (deref h l)) h in
  let '(r2, h2) := Record_ (VRef l) h1 in
  strict_eq r1 r2 = false ∧
  Tuple_isEqual (S (S fuel)) h2 r1 r2 = Some true.
Proof.
  intros Hl _. rewrite Record_fromEntries_run. cbv beta iota zeta.
  rewrite Record_run. simpl to_object. rewrite deref_old by done.
  set (r := Obj _ _ _ _ true). set (h1 := h ++ [r]).
  assert (deref (h1 ++ [r]) (length h1) = r) as H2 by apply deref_new.
  assert (deref (h1 ++ [r]) (length h) = r) as H1.
  { rewrite deref_old; [apply deref_new|]. unfold h1. rewrite length_app. simpl. lia. }
  split.
  - unfold h1. rewrite length_app. simpl. apply Nat.eqb_neq. lia.
  - apply objects_same_props; try done.
    + unfold Array_isArray. by rewrite H1.
    + unfold Object_getPrototypeOf, to_object. by rewrite H1, H2.
    + unfold to_object. by rewrite H1, H2.
Qed.

Lemma fromEntries_entries_witness :
  let '(r1, h1) := Record_fromEntries (own_props (deref two_records 4)) two_records in
  let '(r2, h2) := Record_ (VRef 4) h1 in
  Tuple_isEqual 2 h2 r1 r2 = Some true.
Proof.
  pose proof (fromEntries_entries two_records 4 0) as Hentries.
  destruct (Record_fromEntries _ _) as [r1 h1]. destruct (Record_ _ _) as [r2 h2].
  destruct Hentries as [_ Heq]; [vm_compute; lia| |exact Heq].
  apply (bool_decide_unpack _). vm_compute. exact I.
Defined.

(** X14. [Record(O)] keeps the keys and values of [O] and not its
    prototype: the record compares equal to [O] when the prototype of [O] is
    [Object.prototype], and unequal, in both directions, when it is anything
    else, as for an array or an instance of a class. *)
Theorem Record_equal_to_source (h : heap) (l : loc) :
  l < length h → wf_object (deref h l) → "__proto__" ∉ Object_keys h (VRef l) →
  let '(r, h1) := Record_ (VRef l) h in
  (proto (deref h l) = Some ObjectPrototype →
   ∀ fuel, Tuple_isEqual (S (S fuel)) h1 r (VRef l) = Some true) ∧
  (proto (deref h l) ≠ Some ObjectPrototype →
   ∀ fuel, Tuple_isEqual (S fuel) h1 r (VRef l) = Some false ∧
           Tuple_isEqual (S fuel) h1 (VRef l) r = Some false).
Proof.
  intros Hl Hwf _. rewrite Record_run. simpl to_object.
  rewrite (set_props_copy []) by done. simpl app.
  set (r := Obj _ _ _ _ true). set (h1 := h ++ [r]).
  assert (deref h1 (length h) = r) as Hr by apply deref_new.
  assert (deref h1 l = deref h l) as Hold by by apply deref_old.
  assert (Array_isArray h1 (VRef (length h)) = false) as Ha.
  { unfold Array_isArray. by rewrite Hr. }
  unfold Tuple_isEqual. split.
  - intros Hp fuel. apply objects_same_props; try done.
    + by rewrite Ha.
    + unfold Object_getPrototypeOf, to_object. by rewrite Hr, Hold.
    + unfold to_object. by rewrite Hr, Hold.
  - intros Hp fuel.
    assert (same_value_zero (VRef (length h)) (VRef l) = false) as Hs.
    { unfold same_value_zero. rewrite strict_eq_ref.
      rewrite bool_decide_eq_false_2 by lia. done. }
    assert (Object_getPrototypeOf h1 (VRef (length h)) ≠
            Object_getPrototypeOf h1 (VRef l)) as Hp'.
    { unfold Object_getPrototypeOf, to_object. rewrite Hr, Hold. simpl.
      by intros Heq. }
    split.
    + rewrite _isEqual_objects; [|done|by rewrite Ha|done..].
      by rewrite bool_decide_eq_false_2.
    + rewrite _isEqual_objects;
        [|by rewrite same_value_zero_sym|by rewrite Ha, andb_false_r|done..].
      by rewrite bool_decide_eq_false_2.
Qed.

Lemma Record_equal_to_source_witness :
  (let '(r, h1) := Record_ (VRef 3) two_records in
   Tuple_isEqual 2 h1 r (VRef 3) = Some true) ∧
  (let '(r, h1) := Record_ (VRef 3) array_and_lookalike in
   Tuple_isEqual 1 h1 r (VRef 3) = Some false).
Proof.
  split.
  - pose proof (Record_equal_to_source two_records 3) as Hplain.
    destruct (Record_ _ _) as [r h1].
    destruct Hplain as [Htrue _]; [vm_compute; lia|..|by apply Htrue].
    + apply (bool_decide_unpack _). vm_compute. exact I.
    + apply (bool_decide_unpack _). vm_compute. exact I.
  - pose proof (Record_equal_to_source array_and_lookalike 3) as Harray.
    destruct (Record_ _ _) as [r h1].
    destruct Harray as [_ Hfalse]; [vm_compute; lia|..].
    + apply (bool_decide_unpack _). vm_compute. exact I.
    + apply (bool_decide_unpack _). vm_compute. exact I.
    + apply Hfalse. by intros [=].
Defined.

(** X15. The order of the pairs does not matter to [Record.fromEntries]
    when no key is repeated: the records built from the same pairs in two
    orders compare equal. *)
Theorem fromEntries_order (h : heap) (es es' : list (string * value)) (fuel : nat) :
  NoDup es.*1 → es ≡ₚ es' →
  let '(r1, h1) := Record_fromEntries es h in
  let '(r2, h2) := Record_fromEntries es' h1 in
  strict_eq r1 r2 = false ∧
  Tuple_isEqual (S (S fuel)) h2 r1 r2 = Some true.
Proof.
  intros Hnd Hperm. rewrite Record_fromEntries_run. cbv beta iota zeta.
  rewrite Record_fromEntries_run.
  assert (NoDup es'.*1) as Hnd' by by rewrite <-Hperm.
  rewrite !(set_props_copy []) by done. simpl app.
  set (r1 := Obj _ _ _ es true). set (h1 := h ++ [r1]).
  set (r2 := Obj _ _ _ es' true).
  assert (deref (h1 ++ [r2]) (length h1) = r2) as H2 by apply deref_new.
  assert (deref (h1 ++ [r2]) (length h) = r1) as H1.
  { rewrite deref_old; [apply deref_new|]. unfold h1. rewrite length_app. simpl. lia. }
  assert (length h1 ≠ length h) as Hne.
  { unfold h1. rewrite length_app. simpl. lia. }
  split; [apply Nat.eqb_neq; lia|]. unfold Tuple_isEqual.
  rewrite _isEqual_objects; [| |unfold Array_isArray; by rewrite H1|done..].
  2:{ unfold same_value_zero. rewrite strict_eq_ref.
      by rewrite bool_decide_eq_false_2 by lia. }
  unfold Object_getPrototypeOf, Object_keys, at_key, get, to_object.
  rewrite H1, H2. simpl proto. rewrite bool_decide_eq_true_2 by done.
  change (own_props r1) with es. change (own_props r2) with es'.
  rewrite !length_fmap, (Permutation_length Hperm), Nat.eqb_refl.
  simpl negb. cbv iota. apply every_true. intros k Hk.
  rewrite <-(includes_perm _ _ k (fmap_Permutation fst _ _ Hperm)).
  rewrite (proj2 (includes_elem_of _ _) Hk). simpl negb. cbv iota.
  rewrite <-(get_prop_perm k es es') by done.
  apply _isEqual_same, same_value_zero_refl.
Qed.

Lemma fromEntries_order_witness :
  let '(r1, h1) :=
    Record_fromEntries [("a", number 1); ("b", number 2)] realm in
  let '(r2, h2) :=
    Record_fromEntries [("b", number 2); ("a", number 1)] h1 in
  Tuple_isEqual 2 h2 r1 r2 = Some true.
Proof.
  pose proof (fromEntries_order realm
    [("a", number 1); ("b", number 2)] [("b", number 2); ("a", number 1)] 0)
    as Horder.
  destruct (Record_fromEntries _ realm) as [r1 h1].
  destruct (Record_fromEntries _ h1) as [r2 h2].
  destruct Horder as [_ Heq]; [..|exact Heq].
  - apply (bool_decide_unpack _). vm_compute. exact I.
  - apply perm_swap.
Defined.

(** ** Shallow freezing *)

(** X16. Freezing is shallow: an object that is not frozen stays open to
    change after a tuple and a record have been built (from it, or holding
    it).  The change takes effect, and the tuple and the record, which hold
    the object by reference, are themselves as they were. *)
Theorem freeze_is_shallow (h : heap) (V : list value) (O : value) (l : loc)
    (f : object → object) :
  l < length h → frozen (deref h l) = false →
  let '(t, h1) := Tuple V h in
  let '(r, h2) := Record_ O h1 in
  let h3 := perform h2 (Change l f) in
  deref h3 l = f (deref h l) ∧
  to_object h3 t = to_object h2 t ∧
  to_object h3 r = to_object h2 r.
Proof.
  intros Hl Hf. rewrite Tuple_run. cbv beta iota zeta. rewrite Record_run.
  set (ot := Obj _ _ V _ _). set (h1 := h ++ [ot]).
  set (or := Obj _ _ _ _ true). set (h2 := h1 ++ [or]).
  assert (length h1 = S (length h)) as Hlen1.
  { unfold h1. rewrite length_app. simpl. lia. }
  assert (deref h2 l = deref h l) as Hold.
  { unfold h2, h1. rewrite !deref_old; [done|lia|rewrite length_app; lia]. }
  simpl perform. unfold mutate. simpl. rewrite Hold, Hf.
  unfold to_object, deref in *. split_and!.
  - rewrite list_lookup_total_alter_eq; [by rewrite Hold|].
    unfold h2. rewrite length_app. lia.
  - apply list_lookup_total_alter_ne. lia.
  - apply list_lookup_total_alter_ne. lia.
Qed.

Lemma freeze_is_shallow_witness :
  let '(t, h1) := Tuple [VRef 3] one_record in
  let '(r, h2) := Record_ (VRef 3) h1 in
  let h3 := perform h2 (Change 3 (assign "a" NaN)) in
  at_key h3 (VRef 3) "a" = NaN ∧ at_key h3 r "a" = number 1 ∧
  at_index h3 t 0 = VRef 3.
Proof.
  pose proof (freeze_is_shallow one_record [VRef 3] (VRef 3) 3 (assign "a" NaN))
    as Hshallow.
  destruct (Tuple _ _) as [t h1] eqn:Ht. destruct (Record_ _ _) as [r h2] eqn:Hr.
  cbv zeta in Hshallow |- *.
  destruct Hshallow as (H3 & Htuple & Hrecord); [vm_compute; lia|reflexivity|].
  unfold at_key, at_index. rewrite Htuple, Hrecord.
  change (to_object (perform h2 (Change 3 (assign "a" NaN))) (VRef 3))
    with (deref (perform h2 (Change 3 (assign "a" NaN))) 3).
  rewrite H3. injection Ht as <- <-. injection Hr as <- <-.
  split; [reflexivity|]. split; reflexivity.
Defined.

(** ** Comparisons and later allocations *)

Lemma closed_heap_child h l v :
  closed_heap h → v ∈ children (deref h l) → allocated h v = true.
Proof.
  intros Hc Hv. unfold deref in Hv. rewrite list_lookup_total_alt in Hv.
  destruct (h !! l) as [o|] eqn:Ho; simpl in Hv.
  - pose proof (Forall_lookup_1 _ _ _ _ Hc Ho) as Hch.
    by apply (proj1 (Forall_forall _ _) Hch).
  - by apply elem_of_nil in Hv.
Qed.

Lemma allocated_to_object (h new : heap) x :
  allocated h x = true → to_object (h ++ new) x = to_object h x.
Proof.
  destruct x; simpl; try done; intros Hl%Nat.ltb_lt; by apply deref_old.
Qed.

Lemma extension_isEqual h new (Hc : closed_heap h) fuel : ∀ x y,
  allocated h x = true → allocated h y = true →
  _isEqual fuel (h ++ new) x y = _isEqual fuel h x y.
Proof.
  induction fuel as [|n IH]; intros x y Hx Hy; [done|].
  assert (∀ z, allocated h z = true →
               Array_isArray (h ++ new) z = Array_isArray h z) as Harr.
  { intros z Hz. destruct z; try done.
    change (is_array (to_object (h ++ new) (VRef l)) = is_array (to_object h (VRef l))).
    by rewrite allocated_to_object. }
  destruct (same_value_zero x y) eqn:Hs.
  { by rewrite !_isEqual_same. }
  destruct (Array_isArray h x && Array_isArray h y) eqn:Ha.
  { apply andb_prop in Ha as [Hax Hay].
    rewrite !_isEqual_arrays by (done || by rewrite Harr).
    unfold length_of, at_index. rewrite !allocated_to_object by done.
    destruct (Nat.eqb_spec (length (elems (to_object h x)))
                           (length (elems (to_object h y)))) as [Hlen|]; [|done].
    simpl negb. cbv iota. apply every_ext. intros i [_ Hi]%elem_of_seq.
    destruct x as [| | | | | | | |lx]; try done.
    destruct y as [| | | | | | | |ly]; try done.
    apply IH.
    - eapply closed_heap_child; [done|]. apply (at_index_child h lx i); [done|].
      unfold length_of. simpl in *. lia.
    - eapply closed_heap_child; [done|]. apply (at_index_child h ly i); [done|].
      unfold length_of. simpl in *. lia. }
  destruct (_isObject x && _isObject y) eqn:Ho.
  { apply andb_prop in Ho as [Hox Hoy].
    rewrite !_isEqual_objects by (done || by rewrite !Harr).
    unfold Object_getPrototypeOf, Object_keys, at_key.
    rewrite !allocated_to_object by done.
    destruct (negb _); [done|]. destruct (negb _); [done|].
    apply every_ext. intros k Hk.
    destruct (includes _ k) eqn:Hin; [|done]. simpl negb. cbv iota.
    apply includes_elem_of in Hin.
    apply _isObject_ref in Hox as [lx ->]. apply _isObject_ref in Hoy as [ly ->].
    apply IH.
    - eapply closed_heap_child; [done|]. by apply (at_key_child h lx k).
    - eapply closed_heap_child; [done|]. by apply (at_key_child h ly k). }
  by rewrite !_isEqual_other by (done || by rewrite !Harr).
Qed.

(** X17. Allocating objects does not change the result of comparing values
    that existed before: [isEqual] reads only what its arguments reach.  With
    X9, no call of a constructor or converter changes the outcome of a
    comparison made before it. *)
Theorem isEqual_after_allocation (h new : heap) (x y : value) (fuel : nat) :
  closed_heap h → allocated h x = true → allocated h y = true →
  Tuple_isEqual fuel (h ++ new) x y = Tuple_isEqual fuel h x y.
Proof. intros. by apply extension_isEqual. Qed.

Lemma isEqual_after_allocation_witness :
  let '(_, h1) := Tuple [VRef 3; VRef 4] two_records in
  Tuple_isEqual 2 h1 (VRef 3) (VRef 4) = Some true.
Proof.
  rewrite Tuple_run.
  rewrite (isEqual_after_allocation two_records _ (VRef 3) (VRef 4) 2).
  - reflexivity.
  - apply (bool_decide_unpack _). vm_compute. exact I.
  - reflexivity.
  - reflexivity.
Defined.
